(** * The WebAssembly front end of mGBA: run loop and session lifecycle

    A shallow embedding of [src/platform/wasm/main.c].  The file keeps one
    process-wide [renderer]; here it is an explicit record threaded through
    every entry point.  Entry points that read through [renderer.core] run
    in a small fault monad, so that a call on a null handle shows up in the
    result instead of being silently defined.

    Conventions of the embedding:
    - [int] and [Sint32] are [Z]; where the code computes in 32 bits the
      two's complement wrap-around of the target's [i32] arithmetic is
      written out ([Int32.wrap32]); [Uint32] is [Z] modulo [2^32]
      ([Int32.to_Uint32]);
    - [double] values are rationals ([Q]) and their arithmetic is exact:
      rounding is not represented, so the count of frames due can differ by
      one from the program's when the accumulated time sits on a frame
      boundary; statements about counts keep a [margin] from the
      boundaries.  The conversion of a [double] to [Sint32] truncates
      toward zero and faults outside the range of [Sint32], where C leaves
      it undefined and the target's [i32.trunc_f64_s] traps;
    - the [float] argument of [setVolume] is a rational, an infinity or NaN
      ([float]), with the comparisons and the conversion to [int] that
      these values have;
    - the emulation engine behind [struct mCore], the SDL audio device and
      the emscripten main loop are collaborators whose code is not part of
      the front end; the part of their state that the front end can observe
      is modelled explicitly and marked as such;
    - values that come from the environment (the clock, the pending events,
      what the engine answers) are arguments of the entry point that
      consumes them. *)

From Stdlib Require Import ZArith QArith Qround Lia Lqa Bool.
From stdpp Require Import base option strings gmap.

Local Open Scope Z_scope.

(* ===================================================================== *)
(** ** Faults and the fault monad *)
(* ===================================================================== *)

Inductive fault : Type :=
| NullDeref          (* [renderer.core->...] with [renderer.core == NULL] *)
| ConversionRange.   (* a [double] outside [Sint32] converted to [Sint32] *)

Inductive result (A : Type) : Type :=
| Ok (a : A)
| Fault (f : fault).

Arguments Ok {A} a.
Arguments Fault {A} f.

Definition rbind {A B : Type} (m : result A) (k : A -> result B) : result B :=
  match m with
  | Ok a => k a
  | Fault f => Fault f
  end.

Notation "x <-- m ;; k" := (rbind m (fun x => k))
  (at level 100, m at next level, right associativity).

Definition is_ok {A : Type} (m : result A) : bool :=
  match m with Ok _ => true | Fault _ => false end.

(* ===================================================================== *)
(** ** Machine integers *)
(* ===================================================================== *)

Module Int32.

Definition modulus : Z := 2 ^ 32.
Definition half_modulus : Z := 2 ^ 31.
Definition max_signed : Z := half_modulus - 1.
Definition min_signed : Z := - half_modulus.

(** Result of a signed 32-bit operation: two's complement wrap-around, as
    the target's [i32] arithmetic computes it. *)
Definition wrap32 (z : Z) : Z :=
  (z + half_modulus) mod modulus - half_modulus.

(** Conversion of an [int] to [Uint32] (the usual arithmetic conversion
    applied when an [int] meets a [Uint32]). *)
Definition to_Uint32 (z : Z) : Z := z mod modulus.

Definition in_range (z : Z) : bool :=
  (min_signed <=? z) && (z <=? max_signed).

(** [1 << k] on [int], passed on as a 32-bit mask: the shift count is
    taken modulo 32. *)
Definition bit (k : Z) : Z := to_Uint32 (Z.shiftl 1 (k mod 32)).

End Int32.

(* ===================================================================== *)
(** ** Floating-point values as rationals *)
(* ===================================================================== *)

Module Dbl.

Definition ltb (x y : Q) : bool :=
  (Qnum x * QDen y <? Qnum y * QDen x)%Z.

(** Truncation toward zero, the value conversion of C. *)
Definition trunc (x : Q) : Z := Z.quot (Qnum x) (QDen x).

(** [Sint32 n = x;] *)
Definition to_Sint32 (x : Q) : result Z :=
  let n := trunc x in
  if Int32.in_range n then Ok n else Fault ConversionRange.

End Dbl.

(** A [float]: a number, an infinity or NaN.  Arithmetic on numbers is
    exact, as for [double]; what the embedding adds here are the values that
    are not numbers, which the comparisons and the conversion to [int] treat
    in their own way. *)
Inductive float : Type :=
| Finite (q : Q)
| Infinity (negative : bool)
| NaN.

Module Flt.

(** [x < y]: false whenever an operand is NaN. *)
Definition ltb (x y : float) : bool :=
  match x, y with
  | NaN, _ | _, NaN => false
  | Finite a, Finite b => Dbl.ltb a b
  | Finite _, Infinity negative => negb negative
  | Infinity negative, Finite _ => negative
  | Infinity n1, Infinity n2 => n1 && negb n2
  end.

(** [x * y]. *)
Definition mul (x y : float) : float :=
  match x, y with
  | NaN, _ | _, NaN => NaN
  | Finite a, Finite b => Finite (a * b)
  | Finite a, Infinity negative | Infinity negative, Finite a =>
      if Qeq_bool a 0 then NaN else Infinity (xorb negative (Dbl.ltb a 0))
  | Infinity n1, Infinity n2 => Infinity (xorb n1 n2)
  end.

(** What the conversion to [int] yields for NaN, an infinity or a number
    outside [int]: C leaves it undefined; the guarded conversion that is
    emitted for the target returns the least [int], and so does this one. *)
Definition indefinite : Z := Int32.min_signed.

(** [(int) x]: truncation toward zero. *)
Definition to_int (x : float) : Z :=
  match x with
  | Finite q =>
      let n := Dbl.trunc q in
      if Int32.in_range n then n else indefinite
  | _ => indefinite
  end.

End Flt.

(* ===================================================================== *)
(** ** The emulation engine behind [struct mCore] *)
(* ===================================================================== *)

(** The engine is a collaborator: the front end only calls it.  What
    follows is the part of its state that the front end reads back or that
    is needed to observe its calls. *)

Inductive ConfigValue : Type :=
| IntVal (z : Z)
| StrVal (s : string).

Record mCoreOptions : Type := {
  volume : Z;
  frameskip : Z;
  savegamePath : option string;
  savestatePath : option string;
  cheatsPath : option string;
  screenshotPath : option string
}.

Record mCore : Type := {
  config : gmap string ConfigValue;  (* default values of [core->config] *)
  opts : mCoreOptions;               (* [core->opts] *)
  inputMap : gmap Z Z;               (* [core->inputMap]: keysym to button *)
  keys : Z;                          (* buttons currently held *)
  framesRun : N;                     (* number of [runFrame] calls received *)
  resets : N;                        (* number of [reset] calls received *)
  romLoaded : bool;                  (* what [mCoreLoadFile] returned *)
  audioBufferSize : Z
}.

Definition set_config (f : gmap string ConfigValue -> gmap string ConfigValue)
    (c : mCore) : mCore :=
  {| config := f (config c); opts := opts c; inputMap := inputMap c;
     keys := keys c; framesRun := framesRun c; resets := resets c;
     romLoaded := romLoaded c; audioBufferSize := audioBufferSize c |}.

Definition set_opts (f : mCoreOptions -> mCoreOptions) (c : mCore) : mCore :=
  {| config := config c; opts := f (opts c); inputMap := inputMap c;
     keys := keys c; framesRun := framesRun c; resets := resets c;
     romLoaded := romLoaded c; audioBufferSize := audioBufferSize c |}.

Definition set_inputMap (f : gmap Z Z -> gmap Z Z) (c : mCore) : mCore :=
  {| config := config c; opts := opts c; inputMap := f (inputMap c);
     keys := keys c; framesRun := framesRun c; resets := resets c;
     romLoaded := romLoaded c; audioBufferSize := audioBufferSize c |}.

Definition set_keys (f : Z -> Z) (c : mCore) : mCore :=
  {| config := config c; opts := opts c; inputMap := inputMap c;
     keys := f (keys c); framesRun := framesRun c; resets := resets c;
     romLoaded := romLoaded c; audioBufferSize := audioBufferSize c |}.

Definition set_romLoaded (b : bool) (c : mCore) : mCore :=
  {| config := config c; opts := opts c; inputMap := inputMap c;
     keys := keys c; framesRun := framesRun c; resets := resets c;
     romLoaded := b; audioBufferSize := audioBufferSize c |}.

Definition set_volume (v : Z) (o : mCoreOptions) : mCoreOptions :=
  {| volume := v; frameskip := frameskip o; savegamePath := savegamePath o;
     savestatePath := savestatePath o; cheatsPath := cheatsPath o;
     screenshotPath := screenshotPath o |}.

Definition set_frameskip (v : Z) (o : mCoreOptions) : mCoreOptions :=
  {| volume := volume o; frameskip := v; savegamePath := savegamePath o;
     savestatePath := savestatePath o; cheatsPath := cheatsPath o;
     screenshotPath := screenshotPath o |}.

Definition set_paths (o : mCoreOptions) : mCoreOptions :=
  {| volume := volume o; frameskip := frameskip o;
     savegamePath := Some "/data/saves"%string;
     savestatePath := Some "/data/states"%string;
     cheatsPath := Some "/data/cheats"%string;
     screenshotPath := Some "/data/screenshots"%string |}.

(** Modelled from the spec: [RunFrame] of the engine (reached through
    [core->runFrame], not part of the front end) advances the machine by one
    frame; the handle counts the calls it receives. *)
Definition runFrame (c : mCore) : mCore :=
  {| config := config c; opts := opts c; inputMap := inputMap c;
     keys := keys c; framesRun := N.succ (framesRun c); resets := resets c;
     romLoaded := romLoaded c; audioBufferSize := audioBufferSize c |}.

(** Modelled from the spec: [Reset] of the engine ([core->reset])
    reinitialises the machine in place; the handle counts the calls. *)
Definition reset (c : mCore) : mCore :=
  {| config := config c; opts := opts c; inputMap := inputMap c;
     keys := keys c; framesRun := framesRun c; resets := N.succ (resets c);
     romLoaded := romLoaded c; audioBufferSize := audioBufferSize c |}.

(** Modelled from the spec: [AddKeys(mask)] and [ClearKeys(mask)] of the
    engine ([core->addKeys], [core->clearKeys]) press and release the
    buttons of a mask. *)
Definition addKeys (mask : Z) (c : mCore) : mCore :=
  set_keys (fun k => Z.lor k mask) c.

Definition clearKeys (mask : Z) (c : mCore) : mCore :=
  set_keys (fun k => Z.ldiff k mask) c.

(** Modelled from the spec: [SetAudioBufferSize(n)] ([core->setAudioBufferSize]). *)
Definition setAudioBufferSize (n : Z) (c : mCore) : mCore :=
  {| config := config c; opts := opts c; inputMap := inputMap c;
     keys := keys c; framesRun := framesRun c; resets := resets c;
     romLoaded := romLoaded c; audioBufferSize := n |}.

(** Modelled from the spec: [SetConfigDefault(key, value)] and
    [GetConfigInt(key) -> optional<int>] of the engine's configuration
    ([mCoreConfigInit], [mCoreConfigSetDefaultValue],
    [mCoreConfigSetDefaultIntValue], [mCoreConfigGetIntValue], declared in
    mgba/core/config.h).  The front end never loads a configuration file,
    so a lookup resolves to the default last set for the key. *)
Definition mCoreConfigInit (c : mCore) : mCore :=
  set_config (fun _ => ∅) c.

Definition mCoreConfigSetDefaultValue (key value : string) (c : mCore) : mCore :=
  set_config (fun m => <[key := StrVal value]> m) c.

Definition mCoreConfigSetDefaultIntValue (key : string) (value : Z) (c : mCore) : mCore :=
  set_config (fun m => <[key := IntVal value]> m) c.

Definition mCoreConfigGetIntValue (c : mCore) (key : string) : option Z :=
  match config c !! key with
  | Some (IntVal z) => Some z
  | _ => None
  end.

(** Modelled from the spec: [ReloadConfigOption(key)] of the engine
    ([core->reloadConfigOption]) re-reads the named option from the
    configuration into the engine's active options; an option without an
    integer value is left as it is. *)
Definition reloadConfigOption (key : string) (c : mCore) : mCore :=
  if String.eqb key "volume" then
    match mCoreConfigGetIntValue c "volume" with
    | Some v => set_opts (set_volume v) c
    | None => c
    end
  else if String.eqb key "frameskip" then
    match mCoreConfigGetIntValue c "frameskip" with
    | Some v => set_opts (set_frameskip v) c
    | None => c
    end
  else c.

(** Modelled from the spec: the binding table of the input translator
    ([mInputMapInit], [mInputMapKey], [mInputBindKey], declared in
    mgba/core/input.h): a key without a binding translates to [-1]. *)
Definition mInputMapInit (c : mCore) : mCore :=
  set_inputMap (fun _ => ∅) c.

Definition mInputMapKey (c : mCore) (sym : Z) : Z :=
  default (-1) (inputMap c !! sym).

Definition mInputBindKey (sym input : Z) (c : mCore) : mCore :=
  set_inputMap (fun m => <[sym := input]> m) c.

(* ===================================================================== *)
(** ** SDL: audio device and keyboard events *)
(* ===================================================================== *)

Record mSDLAudio : Type := {
  sampleRate : Z;
  samples : Z;
  fpsTarget : Q;
  audioCore : bool;     (* [audio.core] points at the loaded machine *)
  audioPaused : bool    (* state of the SDL audio device *)
}.

Definition set_fpsTarget (q : Q) (a : mSDLAudio) : mSDLAudio :=
  {| sampleRate := sampleRate a; samples := samples a; fpsTarget := q;
     audioCore := audioCore a; audioPaused := audioPaused a |}.

Definition set_audioCore (b : bool) (a : mSDLAudio) : mSDLAudio :=
  {| sampleRate := sampleRate a; samples := samples a;
     fpsTarget := fpsTarget a; audioCore := b; audioPaused := audioPaused a |}.

(** Modelled from the spec: the audio gate of platform/sdl/sdl-audio.c
    ([mSDLPauseAudio], [mSDLResumeAudio]) stops and starts the output
    stream; stopping a stopped stream or starting a started one changes
    nothing. *)
Definition mSDLPauseAudio (a : mSDLAudio) : mSDLAudio :=
  {| sampleRate := sampleRate a; samples := samples a;
     fpsTarget := fpsTarget a; audioCore := audioCore a; audioPaused := true |}.

Definition mSDLResumeAudio (a : mSDLAudio) : mSDLAudio :=
  {| sampleRate := sampleRate a; samples := samples a;
     fpsTarget := fpsTarget a; audioCore := audioCore a; audioPaused := false |}.

(** Constants of the SDL2 headers. *)
Definition SDL_KEYDOWN : Z := 0x300.
Definition SDL_KEYUP : Z := 0x301.
Definition SDLK_f : Z := 102.
Definition SDLK_TAB : Z := 9.
Definition SDLK_SPACE : Z := 32.
Definition KMOD_NUM : Z := 0x1000.
Definition KMOD_CAPS : Z := 0x2000.

(** The fields of [union SDL_Event] that the front end reads. *)
Record SDL_Event : Type := {
  type : Z;     (* [event.type] *)
  sym : Z;      (* [event.key.keysym.sym] *)
  kmod : Z      (* [event.key.keysym.mod] *)
}.

(* ===================================================================== *)
(** ** The renderer *)
(* ===================================================================== *)

(** [static struct mEmscriptenRenderer renderer], together with the state
    of the emscripten main loop that the entry points pause and resume. *)
Record mEmscriptenRenderer : Type := {
  core : option mCore;          (* [renderer.core], [None] for [NULL] *)
  audio : mSDLAudio;
  renderFirstFrame : bool;
  fastForwardSpeed : Z;
  lastLoopTime : Q;
  frameTime : Q;
  sdlTex : option (Z * Z);      (* the texture and its size, if created *)
  windowSize : Z * Z;
  mainLoopPaused : bool;        (* emscripten_pause/resume_main_loop *)
  presented : N                 (* number of [SDL_RenderPresent] calls *)
}.

Definition set_core (c : option mCore) (r : mEmscriptenRenderer) : mEmscriptenRenderer :=
  {| core := c; audio := audio r; renderFirstFrame := renderFirstFrame r;
     fastForwardSpeed := fastForwardSpeed r; lastLoopTime := lastLoopTime r;
     frameTime := frameTime r; sdlTex := sdlTex r; windowSize := windowSize r;
     mainLoopPaused := mainLoopPaused r; presented := presented r |}.

Definition set_audio (a : mSDLAudio) (r : mEmscriptenRenderer) : mEmscriptenRenderer :=
  {| core := core r; audio := a; renderFirstFrame := renderFirstFrame r;
     fastForwardSpeed := fastForwardSpeed r; lastLoopTime := lastLoopTime r;
     frameTime := frameTime r; sdlTex := sdlTex r; windowSize := windowSize r;
     mainLoopPaused := mainLoopPaused r; presented := presented r |}.

Definition set_renderFirstFrame (b : bool) (r : mEmscriptenRenderer) : mEmscriptenRenderer :=
  {| core := core r; audio := audio r; renderFirstFrame := b;
     fastForwardSpeed := fastForwardSpeed r; lastLoopTime := lastLoopTime r;
     frameTime := frameTime r; sdlTex := sdlTex r; windowSize := windowSize r;
     mainLoopPaused := mainLoopPaused r; presented := presented r |}.

Definition set_fastForwardSpeed (m : Z) (r : mEmscriptenRenderer) : mEmscriptenRenderer :=
  {| core := core r; audio := audio r; renderFirstFrame := renderFirstFrame r;
     fastForwardSpeed := m; lastLoopTime := lastLoopTime r;
     frameTime := frameTime r; sdlTex := sdlTex r; windowSize := windowSize r;
     mainLoopPaused := mainLoopPaused r; presented := presented r |}.

Definition set_lastLoopTime (t : Q) (r : mEmscriptenRenderer) : mEmscriptenRenderer :=
  {| core := core r; audio := audio r; renderFirstFrame := renderFirstFrame r;
     fastForwardSpeed := fastForwardSpeed r; lastLoopTime := t;
     frameTime := frameTime r; sdlTex := sdlTex r; windowSize := windowSize r;
     mainLoopPaused := mainLoopPaused r; presented := presented r |}.

Definition set_frameTime (t : Q) (r : mEmscriptenRenderer) : mEmscriptenRenderer :=
  {| core := core r; audio := audio r; renderFirstFrame := renderFirstFrame r;
     fastForwardSpeed := fastForwardSpeed r; lastLoopTime := lastLoopTime r;
     frameTime := t; sdlTex := sdlTex r; windowSize := windowSize r;
     mainLoopPaused := mainLoopPaused r; presented := presented r |}.

Definition set_sdlTex (t : option (Z * Z)) (r : mEmscriptenRenderer) : mEmscriptenRenderer :=
  {| core := core r; audio := audio r; renderFirstFrame := renderFirstFrame r;
     fastForwardSpeed := fastForwardSpeed r; lastLoopTime := lastLoopTime r;
     frameTime := frameTime r; sdlTex := t; windowSize := windowSize r;
     mainLoopPaused := mainLoopPaused r; presented := presented r |}.

Definition set_windowSize (s : Z * Z) (r : mEmscriptenRenderer) : mEmscriptenRenderer :=
  {| core := core r; audio := audio r; renderFirstFrame := renderFirstFrame r;
     fastForwardSpeed := fastForwardSpeed r; lastLoopTime := lastLoopTime r;
     frameTime := frameTime r; sdlTex := sdlTex r; windowSize := s;
     mainLoopPaused := mainLoopPaused r; presented := presented r |}.

Definition set_mainLoopPaused (b : bool) (r : mEmscriptenRenderer) : mEmscriptenRenderer :=
  {| core := core r; audio := audio r; renderFirstFrame := renderFirstFrame r;
     fastForwardSpeed := fastForwardSpeed r; lastLoopTime := lastLoopTime r;
     frameTime := frameTime r; sdlTex := sdlTex r; windowSize := windowSize r;
     mainLoopPaused := b; presented := presented r |}.

Definition set_presented (n : N) (r : mEmscriptenRenderer) : mEmscriptenRenderer :=
  {| core := core r; audio := audio r; renderFirstFrame := renderFirstFrame r;
     fastForwardSpeed := fastForwardSpeed r; lastLoopTime := lastLoopTime r;
     frameTime := frameTime r; sdlTex := sdlTex r; windowSize := windowSize r;
     mainLoopPaused := mainLoopPaused r; presented := n |}.

(** [renderer.core->...]: reading through the handle faults when it is null. *)
Definition deref (r : mEmscriptenRenderer) : result mCore :=
  match core r with
  | Some c => Ok c
  | None => Fault NullDeref
  end.

(** The static initialiser of [renderer], completed by what [main] sets up
    before it hands [runLoop] to the main loop. *)
Definition GBA_VIDEO_HORIZONTAL_PIXELS : Z := 240.
Definition GBA_VIDEO_VERTICAL_PIXELS : Z := 160.

Definition main : mEmscriptenRenderer :=
  {| core := None;
     audio := {| sampleRate := 48000; samples := 4096; fpsTarget := 60;
                 audioCore := false; audioPaused := true |};
     renderFirstFrame := true;
     fastForwardSpeed := 1;
     lastLoopTime := 0;
     frameTime := 0;
     sdlTex := None;
     windowSize := (GBA_VIDEO_HORIZONTAL_PIXELS, GBA_VIDEO_VERTICAL_PIXELS);
     mainLoopPaused := false;
     presented := 0 |}.

(* ===================================================================== *)
(** ** Key presses and the run loop *)
(* ===================================================================== *)

Definition handleKeypressCore (event : SDL_Event) (r : mEmscriptenRenderer)
    : result mEmscriptenRenderer :=
  if sym event =? SDLK_f then
    Ok (set_fastForwardSpeed (if type event =? SDL_KEYDOWN then 2 else 1) r)
  else
    key <-- (if Z.land (kmod event) (Z.lnot (Z.lor KMOD_NUM KMOD_CAPS)) =? 0
             then c <-- deref r ;; Ok (mInputMapKey c (sym event))
             else Ok (-1)) ;;
    if negb (key =? -1) then
      c <-- deref r ;;
      if type event =? SDL_KEYDOWN
      then Ok (set_core (Some (addKeys (Int32.bit key) c)) r)
      else Ok (set_core (Some (clearKeys (Int32.bit key) c)) r)
    else Ok r.

(** The event filter installed by [main]: events it maps to 0 are dropped
    before they reach the queue. *)
Definition excludeKeys (event : SDL_Event) : Z :=
  if (sym event =? SDLK_TAB) || (sym event =? SDLK_SPACE) then 0 else 1.

(** The events that pass the filter and so reach [SDL_PollEvent]. *)
Definition delivered (events : list SDL_Event) : list SDL_Event :=
  List.filter (fun e => negb (excludeKeys e =? 0)) events.

(** [while (SDL_PollEvent(&event)) { switch (event.type) ... }] over the
    events that are pending. *)
Fixpoint pollEvents (events : list SDL_Event) (r : mEmscriptenRenderer)
    : result mEmscriptenRenderer :=
  match events with
  | nil => Ok r
  | event :: rest =>
      r' <-- (if (type event =? SDL_KEYDOWN) || (type event =? SDL_KEYUP) then
                match core r with
                | Some _ => handleKeypressCore event r
                | None => Ok r
                end
              else Ok r) ;;
      pollEvents rest r'
  end.

Definition targetFrameTime : Q := 1000 / 60.

(** [for (Uint32 i = 0; i < nowFramesInt; i++) runFrame(core)]: the bound is
    converted to [Uint32] by the comparison. *)
Definition runFrames (nowFramesInt : Z) (c : mCore) : mCore :=
  N.iter (Z.to_N (Int32.to_Uint32 nowFramesInt)) runFrame c.

(** Presenting the frame and handing the engine its next buffer: the tail
    of [runLoop] after the frames have run. *)
Definition present (r : mEmscriptenRenderer) : mEmscriptenRenderer :=
  set_presented (N.succ (presented r)) r.

(** [runLoop], called with the pending events and the value that
    [emscripten_get_now()] returns. *)
Definition runLoop (events : list SDL_Event) (now : Q) (r : mEmscriptenRenderer)
    : result mEmscriptenRenderer :=
  r <-- pollEvents (delivered events) r ;;
  match core r with
  | Some c =>
      let elapsed := (now - lastLoopTime r)%Q in
      let r := set_lastLoopTime now r in
      let r := set_frameTime (frameTime r + elapsed)%Q r in
      let numberOfFrames := ((frameTime r + (2 # 10)) / targetFrameTime)%Q in
      nowFramesInt <-- Dbl.to_Sint32 numberOfFrames ;;
      if nowFramesInt <? 1 then Ok r
      else
        let r := set_frameTime
                   (frameTime r - inject_Z nowFramesInt * targetFrameTime)%Q r in
        let r := if Dbl.ltb (frameTime r) 0 then set_frameTime 0 r else r in
        let nowFramesInt :=
          if fastForwardSpeed r >? 1
          then Int32.wrap32 (nowFramesInt * fastForwardSpeed r)
          else nowFramesInt in
        let nowFramesInt := if nowFramesInt >? 20 then 20 else nowFramesInt in
        let r :=
          if renderFirstFrame r
          then set_core (Some (runFrame c)) (set_renderFirstFrame false r)
          else set_core (Some (runFrames nowFramesInt c)) r in
        Ok (present r)
  | None =>
      Ok (set_mainLoopPaused true (set_renderFirstFrame true r))
  end.

(* ===================================================================== *)
(** ** Exposed entry points *)
(* ===================================================================== *)

Definition buttonPress (id : Z) (r : mEmscriptenRenderer) : result mEmscriptenRenderer :=
  match core r with
  | Some c => Ok (set_core (Some (addKeys (Int32.bit id) c)) r)
  | None => Ok r
  end.

Definition buttonUnpress (id : Z) (r : mEmscriptenRenderer) : result mEmscriptenRenderer :=
  match core r with
  | Some c => Ok (set_core (Some (clearKeys (Int32.bit id) c)) r)
  | None => Ok r
  end.

Definition setVolume (vol : float) (r : mEmscriptenRenderer) : result mEmscriptenRenderer :=
  if Flt.ltb (Finite 2) vol || Flt.ltb vol (Finite 0) then Ok r
  else
    let volume := Flt.to_int (Flt.mul vol (Finite 0x100)) in
    match core r with
    | Some c =>
        let r := if volume =? 0
                 then set_audio (mSDLPauseAudio (audio r)) r
                 else set_audio (mSDLResumeAudio (audio r)) r in
        let c := mCoreConfigSetDefaultIntValue "volume" volume c in
        let c := reloadConfigOption "volume" c in
        Ok (set_core (Some c) r)
    | None => Ok r
    end.

Definition getVolume (r : mEmscriptenRenderer) : result Q :=
  c <-- deref r ;;
  Ok (inject_Z (volume (opts c)) / 0x100)%Q.

Definition setFastForwardMultiplier (multiplier : Z) (r : mEmscriptenRenderer)
    : result mEmscriptenRenderer :=
  if multiplier >? 0 then
    let r := set_fastForwardSpeed multiplier r in
    let r := set_audio (set_fpsTarget (60 * inject_Z multiplier)%Q (audio r)) r in
    (* fast forward starts at 1, frameskip starts at 0 *)
    c <-- deref r ;;
    let c := mCoreConfigSetDefaultIntValue "frameskip" (multiplier - 1) c in
    let c := reloadConfigOption "frameskip" c in
    Ok (set_core (Some c) r)
  else Ok r.

Definition getFastForwardMultiplier (r : mEmscriptenRenderer) : Z :=
  fastForwardSpeed r.

Definition quitGame (r : mEmscriptenRenderer) : result mEmscriptenRenderer :=
  match core r with
  | Some _ =>
      let r := set_renderFirstFrame true r in
      let r := set_audio (mSDLPauseAudio (audio r)) r in
      let r := set_mainLoopPaused true r in
      (* core->deinit(core) destroys the machine *)
      Ok (set_core None r)
  | None => Ok r
  end.

Definition quickReload (r : mEmscriptenRenderer) : result mEmscriptenRenderer :=
  let r := set_renderFirstFrame true r in
  c <-- deref r ;;
  Ok (set_core (Some (reset c)) r).

Definition pauseGame (r : mEmscriptenRenderer) : result mEmscriptenRenderer :=
  let r := set_renderFirstFrame true r in
  let r := set_audio (mSDLPauseAudio (audio r)) r in
  Ok (set_mainLoopPaused true r).

Definition resumeGame (r : mEmscriptenRenderer) : result mEmscriptenRenderer :=
  c <-- deref r ;;
  let vol := default (-1) (mCoreConfigGetIntValue c "volume") in
  let r := if vol >? 0 then set_audio (mSDLResumeAudio (audio r)) r else r in
  Ok (set_mainLoopPaused false r).

(** [bindKey]: [keycode] is what [SDL_GetKeyFromName(bindingName)] returns. *)
Definition bindKey (keycode inputCode : Z) (r : mEmscriptenRenderer)
    : result mEmscriptenRenderer :=
  c <-- deref r ;;
  Ok (set_core (Some (mInputBindKey keycode inputCode c)) r).

(** [saveState] and [loadState]: [engine] is what the engine's
    [mCoreSaveState] or [mCoreLoadState] answers when it is reached. *)
Definition saveState (slot : Z) (engine : bool) (r : mEmscriptenRenderer)
    : result (mEmscriptenRenderer * bool) :=
  match core r with
  | Some _ => Ok (r, engine)
  | None => Ok (r, false)
  end.

Definition loadState (slot : Z) (engine : bool) (r : mEmscriptenRenderer)
    : result (mEmscriptenRenderer * bool) :=
  match core r with
  | Some _ => Ok (r, engine)
  | None => Ok (r, false)
  end.

(** What the collaborators answer during one [loadGame]. *)
Record LoadEnv : Type := {
  mCoreFind : string -> option mCore;   (* the machine created for a name *)
  mCoreLoadFile : string -> bool;       (* whether the image loads into it *)
  mSDLInitBindingsGBA : gmap Z Z;       (* the default key bindings *)
  baseVideoSize : Z * Z;
  currentVideoSize : Z * Z
}.

Definition loadGame (env : LoadEnv) (name : string) (r : mEmscriptenRenderer)
    : result (mEmscriptenRenderer * bool) :=
  let r := match core r with
           | Some _ => set_core None r      (* deinit, then NULL *)
           | None => r
           end in
  let r := set_core (mCoreFind env name) r in
  match core r with
  | None => Ok (r, false)
  | Some c =>
      (* core->init(core) *)
      let c := set_opts set_paths c in
      let c := set_romLoaded (mCoreLoadFile env name) c in
      let c := mCoreConfigInit c in
      let c := mCoreConfigSetDefaultValue "idleOptimization" "detect" c in
      let c := mCoreConfigSetDefaultIntValue "volume" 0x100 c in
      let c := mInputMapInit c in
      (* mDirectorySetMapOptions, mCoreAutoloadSave, mCoreAutoloadCheats:
         their results are not looked at *)
      let c := set_inputMap (fun m => mSDLInitBindingsGBA env ∪ m) c in
      let r := set_sdlTex (Some (baseVideoSize env)) r in
      (* SDL_LockTexture, core->setVideoBuffer *)
      let c := setAudioBufferSize (samples (audio r) * 2) c in
      let c := reset c in
      let r := set_windowSize (currentVideoSize env) r in
      let r := set_audio (set_audioCore true (audio r)) r in
      let r := set_audio (mSDLResumeAudio (audio r)) r in
      let r := set_mainLoopPaused false r in
      Ok (set_core (Some c) r, true)
  end.

(* ===================================================================== *)
(** ** Observations used by the statements *)
(* ===================================================================== *)

(** Number of [runFrame] calls that the machine of [r] has received. *)
Definition framesOf (r : mEmscriptenRenderer) : N :=
  match core r with
  | Some c => framesRun c
  | None => 0%N
  end.

(** Frames executed between two states of the same session. *)
Definition framesExecuted (before after : mEmscriptenRenderer) : N :=
  (framesOf after - framesOf before)%N.

Definition loaded (r : mEmscriptenRenderer) : Prop := core r <> None.

(** Time accumulated when a tick starts, and the number of whole frames
    the tick finds due: the value of [nowFramesInt] at its first test. *)
Definition accumulated (now : Q) (r : mEmscriptenRenderer) : Q :=
  (frameTime r + (now - lastLoopTime r))%Q.

Definition framesDue (now : Q) (r : mEmscriptenRenderer) : Z :=
  Dbl.trunc ((accumulated now r + (2 # 10)) / targetFrameTime)%Q.

(** What key handling leaves alone: the pacing state, the frame count and
    whether a machine is loaded. *)
Definition same_pacing (r r' : mEmscriptenRenderer) : Prop :=
  frameTime r' = frameTime r /\
  lastLoopTime r' = lastLoopTime r /\
  renderFirstFrame r' = renderFirstFrame r /\
  framesOf r' = framesOf r /\
  (loaded r' <-> loaded r).

(** The value of [nowFramesInt] when the frames are run: scaled by the
    fast-forward speed, then capped. *)
Definition framesToRun (nowFramesInt speed : Z) : Z :=
  let n := if speed >? 1 then Int32.wrap32 (nowFramesInt * speed)
           else nowFramesInt in
  if n >? 20 then 20 else n.

(** The accumulator after [n] frames have been taken out of it. *)
Definition normalized (now : Q) (r : mEmscriptenRenderer) (n : Z) : Q :=
  let t := (accumulated now r - inject_Z n * targetFrameTime)%Q in
  if Dbl.ltb t 0 then 0%Q else t.

(* ===================================================================== *)
(** ** A sample session *)
(* ===================================================================== *)

(** Concrete collaborators and the states of a short session, used to run
    the entry points on explicit inputs. *)

Definition freshCore : mCore :=
  {| config := ∅;
     opts := {| volume := 0; frameskip := 0; savegamePath := None;
                savestatePath := None; cheatsPath := None;
                screenshotPath := None |};
     inputMap := ∅; keys := 0; framesRun := 0; resets := 0;
     romLoaded := false; audioBufferSize := 0 |}.

(** Every name has a machine, and its image loads. *)
Definition sampleEnv : LoadEnv :=
  {| mCoreFind := fun _ => Some freshCore;
     mCoreLoadFile := fun _ => true;
     mSDLInitBindingsGBA := {[ 120 := 0; 122 := 1 ]};
     baseVideoSize := (240, 160);
     currentVideoSize := (240, 160) |}.

(** Every name has a machine, but its image does not load into it. *)
Definition brokenImageEnv : LoadEnv :=
  {| mCoreFind := fun _ => Some freshCore;
     mCoreLoadFile := fun _ => false;
     mSDLInitBindingsGBA := {[ 120 := 0; 122 := 1 ]};
     baseVideoSize := (240, 160);
     currentVideoSize := (240, 160) |}.

(** No name has a machine. *)
Definition emptyEnv : LoadEnv :=
  {| mCoreFind := fun _ => None;
     mCoreLoadFile := fun _ => false;
     mSDLInitBindingsGBA := ∅;
     baseVideoSize := (240, 160);
     currentVideoSize := (240, 160) |}.

Definition after {A : Type} (m : result A) (d : A) : A :=
  match m with
  | Ok a => a
  | Fault _ => d
  end.

(** [loadGame("game.gba")] at startup. *)
Definition sampleLoaded : mEmscriptenRenderer :=
  fst (after (loadGame sampleEnv "game.gba" main) (main, false)).

(** ... then a tick at 100 ms, which runs the first frame, *)
Definition sampleRunning : mEmscriptenRenderer :=
  after (runLoop nil 100 sampleLoaded) sampleLoaded.

(** ... then a tick 5 ms later, too early for a frame. *)
Definition sampleIdle : mEmscriptenRenderer :=
  after (runLoop nil 105 sampleRunning) sampleRunning.

(** [setFastForwardMultiplier(2147483647)] on the running session. *)
Definition sampleFast : mEmscriptenRenderer :=
  after (setFastForwardMultiplier 2147483647 sampleRunning) sampleRunning.

(** [pauseGame()] then [resumeGame()] on the running session. *)
Definition samplePaused : mEmscriptenRenderer :=
  after (pauseGame sampleRunning) sampleRunning.

Definition sampleResumed : mEmscriptenRenderer :=
  after (resumeGame samplePaused) samplePaused.

(** A tick 20 ms after [sampleIdle], when one frame is due. *)
Definition sampleStepped : mEmscriptenRenderer :=
  after (runLoop nil 125 sampleIdle) sampleIdle.

(** [setVolume(0.5)] on the running session. *)
Definition sampleQuiet : mEmscriptenRenderer :=
  after (setVolume (Finite (1 # 2)) sampleRunning) sampleRunning.

(** A tick 5000 ms after [sampleRunning], as after a stall. *)
Definition sampleStalled : mEmscriptenRenderer :=
  after (runLoop nil 5100 sampleRunning) sampleRunning.

(** A press of [f] with Ctrl held ([KMOD_LCTRL] is [0x0040]). *)
Definition ctrlF : SDL_Event :=
  {| type := SDL_KEYDOWN; sym := SDLK_f; kmod := 0x0040 |}.

(* ===================================================================== *)
(** ** Further entry points *)
(* ===================================================================== *)





(* ===================================================================== *)
(** ** Sessions: sequences of calls from the host *)
(* ===================================================================== *)

(** One call that the embedding page or the main loop makes. *)
Inductive Call : Type :=
| CallRunLoop (events : list SDL_Event) (now : Q)
| CallLoadGame (env : LoadEnv) (name : string)
| CallQuitGame
| CallQuickReload
| CallPauseGame
| CallResumeGame
| CallButtonPress (id : Z)
| CallButtonUnpress (id : Z)
| CallSetVolume (vol : float)
| CallSetFastForwardMultiplier (multiplier : Z)
| CallBindKey (keycode inputCode : Z)
| CallSaveState (slot : Z) (engine : bool)
| CallLoadState (slot : Z) (engine : bool).

Definition call (c : Call) (r : mEmscriptenRenderer) : result mEmscriptenRenderer :=
  match c with
  | CallRunLoop events now => runLoop events now r
  | CallLoadGame env name => p <-- loadGame env name r ;; Ok (fst p)
  | CallQuitGame => quitGame r
  | CallQuickReload => quickReload r
  | CallPauseGame => pauseGame r
  | CallResumeGame => resumeGame r
  | CallButtonPress id => buttonPress id r
  | CallButtonUnpress id => buttonUnpress id r
  | CallSetVolume vol => setVolume vol r
  | CallSetFastForwardMultiplier m => setFastForwardMultiplier m r
  | CallBindKey keycode inputCode => bindKey keycode inputCode r
  | CallSaveState slot engine => p <-- saveState slot engine r ;; Ok (fst p)
  | CallLoadState slot engine => p <-- loadState slot engine r ;; Ok (fst p)
  end.

(** The calls of a session, in order; a fault ends it. *)
Fixpoint session (calls : list Call) (r : mEmscriptenRenderer)
    : result mEmscriptenRenderer :=
  match calls with
  | nil => Ok r
  | c :: rest => r' <-- call c r ;; session rest r'
  end.

(** The clock readings of the ticks of a session never go back, starting
    from the reading [t]. *)
Fixpoint monotone (t : Q) (calls : list Call) : Prop :=
  match calls with
  | nil => True
  | CallRunLoop _ now :: rest => (t <= now)%Q /\ monotone now rest
  | _ :: rest => monotone t rest
  end.

(** Ticks without an [f] key, the [k]-th of them within [jitter] of the
    beat [t0 + k * targetFrameTime]; [k] counts on from the first. *)
Fixpoint onBeat (t0 jitter : Q) (k : Z) (ticks : list (list SDL_Event * Q)) : Prop :=
  match ticks with
  | nil => True
  | (events, now) :: rest =>
      (t0 + inject_Z k * targetFrameTime - jitter <= now)%Q /\
      (now <= t0 + inject_Z k * targetFrameTime + jitter)%Q /\
      Forall (fun e => sym e <> SDLK_f) events /\
      onBeat t0 jitter (k + 1) rest
  end.

Definition ticking (ticks : list (list SDL_Event * Q)) : list Call :=
  List.map (fun t => CallRunLoop (fst t) (snd t)) ticks.

(** The bias that [runLoop] adds before it counts the frames due. *)
Definition bias : Q := 2 # 10.

(** A thousandth of a millisecond: the distance from a frame boundary that
    statements about frame counts ask for, so that they do not hinge on an
    accumulated time that sits on the boundary, where the rounding of the
    program's doubles decides the count. *)
Definition margin : Q := 1 # 1000.

(** At the tick at [now], [n] frames are due and the accumulated time with
    its bias is clear of the frame boundaries on either side by [margin]. *)
Definition dueClear (n : Z) (now : Q) (r : mEmscriptenRenderer) : Prop :=
  0 <= n /\
  (n = 0 \/ (inject_Z n * targetFrameTime + margin <= accumulated now r + bias)%Q) /\
  (accumulated now r + bias + margin <= (inject_Z n + 1) * targetFrameTime)%Q.

(** The pacing state is sound at clock reading [t]: the speed is at least
    1, the accumulator is non-negative and holds less than a frame time
    minus the bias, and the last tick was not after [t]. *)
Definition paced (t : Q) (r : mEmscriptenRenderer) : Prop :=
  1 <= fastForwardSpeed r /\
  (0 <= frameTime r)%Q /\
  (frameTime r < targetFrameTime - bias)%Q /\
  (lastLoopTime r <= t)%Q.

(** What every call but a tick and a speed change leaves alone. *)
Definition same_clock (r r' : mEmscriptenRenderer) : Prop :=
  frameTime r' = frameTime r /\
  lastLoopTime r' = lastLoopTime r /\
  fastForwardSpeed r' = fastForwardSpeed r.

(** An event with other modifiers. *)
Definition with_kmod (m : Z) (event : SDL_Event) : SDL_Event :=
  {| type := type event; sym := sym event; kmod := m |}.

Definition is_key_event (event : SDL_Event) : bool :=
  (type event =? SDL_KEYDOWN) || (type event =? SDL_KEYUP).

(** A session from startup: load, first tick, fast forward, a tick with the
    [f] key, a pause and a resume, a tick after a stall, and the unload. *)
Definition sampleCalls : list Call :=
  CallLoadGame sampleEnv "game.gba" ::
  CallRunLoop nil 100 ::
  CallSetFastForwardMultiplier 3 ::
  CallRunLoop ({| type := SDL_KEYUP; sym := SDLK_f; kmod := 0 |} :: nil) 125 ::
  CallPauseGame ::
  CallResumeGame ::
  CallRunLoop nil 5000 ::
  CallQuitGame :: nil.

(* ===================================================================== *)
(** ** Arithmetic of the embedding *)
(* ===================================================================== *)

Lemma ltb_lt (x y : Q) : Dbl.ltb x y = true <-> (x < y)%Q.
Proof. unfold Dbl.ltb, Qlt. apply Z.ltb_lt. Qed.

Lemma ltb_ge (x y : Q) : Dbl.ltb x y = false <-> (y <= x)%Q.
Proof. unfold Dbl.ltb, Qle. rewrite Z.ltb_ge. reflexivity. Qed.

Lemma trunc_floor (x : Q) : (0 <= x)%Q -> Dbl.trunc x = Qfloor x.
Proof.
  destruct x as [n d]. unfold Qle, Dbl.trunc, Qfloor. simpl.
  intros H. apply Z.quot_div_nonneg; lia.
Qed.

Lemma trunc_nonpos (x : Q) : (x < 0)%Q -> Dbl.trunc x <= 0.
Proof.
  destruct x as [n d]. unfold Qlt, Dbl.trunc. simpl. intros H.
  assert (Hn : n < 0) by lia.
  replace n with (- - n) by lia. rewrite Z.quot_opp_l by lia.
  assert (0 <= Z.quot (- n) (Z.pos d)) by (apply Z.quot_pos; lia).
  lia.
Qed.

(** A truncation that reaches 1 is the floor of a positive value. *)
Lemma trunc_bounds (x : Q) :
  1 <= Dbl.trunc x ->
  (inject_Z (Dbl.trunc x) <= x)%Q /\ (x < inject_Z (Dbl.trunc x) + 1)%Q.
Proof.
  intros H.
  assert (Hx : (0 <= x)%Q).
  { destruct (Qlt_le_dec x 0) as [Hneg | Hpos]; [| exact Hpos].
    apply trunc_nonpos in Hneg. lia. }
  rewrite (trunc_floor x Hx). split.
  - apply Qfloor_le.
  - pose proof (Qlt_floor x) as Hlt.
    rewrite inject_Z_plus in Hlt. exact Hlt.
Qed.

Lemma runFrame_iter (n : N) (c : mCore) :
  framesRun (N.iter n runFrame c) = (framesRun c + n)%N.
Proof.
  induction n as [| n IH] using N.peano_ind.
  - simpl. lia.
  - rewrite N.iter_succ. simpl. rewrite IH. lia.
Qed.

Lemma runFrames_count (n : Z) (c : mCore) :
  framesRun (runFrames n c) = (framesRun c + Z.to_N (Int32.to_Uint32 n))%N.
Proof. unfold runFrames. apply runFrame_iter. Qed.

(* ===================================================================== *)
(** ** Key handling *)
(* ===================================================================== *)

Lemma same_pacing_refl (r : mEmscriptenRenderer) : same_pacing r r.
Proof. unfold same_pacing. tauto. Qed.

Lemma same_pacing_trans (r1 r2 r3 : mEmscriptenRenderer) :
  same_pacing r1 r2 -> same_pacing r2 r3 -> same_pacing r1 r3.
Proof.
  unfold same_pacing. intros (A1 & A2 & A3 & A4 & A5) (B1 & B2 & B3 & B4 & B5).
  repeat split; try congruence; tauto.
Qed.

Lemma handleKeypressCore_loaded (event : SDL_Event) (r : mEmscriptenRenderer) :
  loaded r ->
  exists r', handleKeypressCore event r = Ok r' /\ same_pacing r r'.
Proof.
  unfold loaded, handleKeypressCore, deref. intros Hc.
  destruct (core r) as [c |] eqn:Ec; [clear Hc | congruence].
  destruct (sym event =? SDLK_f).
  - eexists. split; [reflexivity |].
    unfold same_pacing, framesOf, loaded. simpl. rewrite Ec. tauto.
  - destruct (Z.land (kmod event) (Z.lnot (Z.lor KMOD_NUM KMOD_CAPS)) =? 0);
      simpl.
    + destruct (negb (mInputMapKey c (sym event) =? -1)); simpl.
      * destruct (type event =? SDL_KEYDOWN); eexists; (split; [reflexivity |]);
          unfold same_pacing, framesOf, loaded; simpl; rewrite Ec; simpl;
          repeat split; congruence.
      * eexists. split; [reflexivity | apply same_pacing_refl].
    + eexists. split; [reflexivity | apply same_pacing_refl].
Qed.

Lemma pollEvents_ok (events : list SDL_Event) (r : mEmscriptenRenderer) :
  exists r', pollEvents events r = Ok r' /\ same_pacing r r'.
Proof.
  revert r. induction events as [| event rest IH]; intros r.
  - exists r. split; [reflexivity | apply same_pacing_refl].
  - simpl.
    assert (Hstep : exists r1,
      (if (type event =? SDL_KEYDOWN) || (type event =? SDL_KEYUP)
       then match core r with
            | Some _ => handleKeypressCore event r
            | None => Ok r
            end
       else Ok r) = Ok r1 /\ same_pacing r r1).
    { destruct ((type event =? SDL_KEYDOWN) || (type event =? SDL_KEYUP)).
      - destruct (core r) as [c |] eqn:Ec.
        + apply handleKeypressCore_loaded. unfold loaded. congruence.
        + exists r. split; [reflexivity | apply same_pacing_refl].
      - exists r. split; [reflexivity | apply same_pacing_refl]. }
    destruct Hstep as (r1 & E1 & K1). rewrite E1. simpl.
    destruct (IH r1) as (r' & E' & K'). exists r'. split; [exact E' |].
    eapply same_pacing_trans; eassumption.
Qed.

(* ===================================================================== *)
(** ** One tick of the run loop *)
(* ===================================================================== *)

(** A tick on a loaded session, read off the code: the events are handled,
    then either no frame is due and only the clock and the accumulator move,
    or frames are taken out of the accumulator and run. *)
Lemma runLoop_loaded (events : list SDL_Event) (now : Q)
    (r r' : mEmscriptenRenderer) :
  loaded r ->
  runLoop events now r = Ok r' ->
  exists r0,
    pollEvents (delivered events) r = Ok r0 /\
    same_pacing r r0 /\
    Int32.in_range (framesDue now r) = true /\
    loaded r' /\
    lastLoopTime r' = now /\
    fastForwardSpeed r' = fastForwardSpeed r0 /\
    (framesDue now r < 1 ->
       frameTime r' = accumulated now r /\
       renderFirstFrame r' = renderFirstFrame r /\
       framesOf r' = framesOf r) /\
    (1 <= framesDue now r ->
       frameTime r' = normalized now r (framesDue now r) /\
       renderFirstFrame r' = false /\
       framesOf r' =
         (framesOf r +
          (if renderFirstFrame r then 1
           else Z.to_N (Int32.to_Uint32
                  (framesToRun (framesDue now r) (fastForwardSpeed r0)))))%N).
Proof.
  intros Hl Hrun. unfold runLoop in Hrun.
  destruct (pollEvents_ok (delivered events) r) as (r0 & E0 & K0).
  exists r0. split; [exact E0 |]. split; [exact K0 |].
  rewrite E0 in Hrun. simpl in Hrun.
  destruct K0 as (Kft & Kll & Krf & Kfr & Kld).
  destruct (core r0) as [c0 |] eqn:Ec0.
  2:{ apply Kld in Hl. unfold loaded in Hl. rewrite Ec0 in Hl. congruence. }
  assert (Hdue : framesDue now r =
    Dbl.trunc ((frameTime r0 + (now - lastLoopTime r0) + (2 # 10)) / targetFrameTime)%Q).
  { unfold framesDue, accumulated. rewrite Kft, Kll. reflexivity. }
  unfold Dbl.to_Sint32 in Hrun. rewrite <- Hdue in Hrun.
  destruct (Int32.in_range (framesDue now r)) eqn:Erange; [| discriminate].
  split; [reflexivity |]. simpl in Hrun.
  assert (Hfr0 : framesOf r = framesRun c0).
  { rewrite <- Kfr. unfold framesOf. rewrite Ec0. reflexivity. }
  destruct (framesDue now r <? 1) eqn:Elt.
  - apply Z.ltb_lt in Elt. inversion Hrun; subst r'; clear Hrun.
    rewrite Hfr0. unfold loaded, framesOf. simpl. rewrite Ec0.
    repeat split; try congruence; try lia.
    unfold accumulated. rewrite Kft, Kll. reflexivity.
  - apply Z.ltb_ge in Elt.
    assert (Hnorm : normalized now r (framesDue now r) =
      (if Dbl.ltb (frameTime r0 + (now - lastLoopTime r0)
                   - inject_Z (framesDue now r) * targetFrameTime) 0
       then 0
       else frameTime r0 + (now - lastLoopTime r0)
            - inject_Z (framesDue now r) * targetFrameTime)%Q).
    { unfold normalized, accumulated. rewrite Kft, Kll. reflexivity. }
    destruct (Dbl.ltb (frameTime r0 + (now - lastLoopTime r0)
                       - inject_Z (framesDue now r) * targetFrameTime) 0) eqn:Eneg;
      simpl in Hrun; rewrite <- Krf in *;
      destruct (renderFirstFrame r0) eqn:Erf; simpl in Hrun;
      inversion Hrun; subst r'; clear Hrun;
      rewrite Hfr0; unfold loaded, framesOf; simpl; rewrite ?runFrames_count;
      (repeat split; try congruence; try lia).
Qed.

(** A tick on a loaded session returns normally whenever the number of
    frames due fits [Sint32]. *)
Lemma runLoop_total (events : list SDL_Event) (now : Q) (r : mEmscriptenRenderer) :
  loaded r ->
  Int32.in_range (framesDue now r) = true ->
  exists r', runLoop events now r = Ok r'.
Proof.
  intros Hl Hr. unfold runLoop.
  destruct (pollEvents_ok (delivered events) r) as (r0 & E0 & K0).
  rewrite E0. simpl. destruct K0 as (Kft & Kll & Krf & Kfr & Kld).
  destruct (core r0) as [c0 |] eqn:Ec0.
  2:{ apply Kld in Hl. unfold loaded in Hl. rewrite Ec0 in Hl. congruence. }
  unfold Dbl.to_Sint32. rewrite Kft, Kll.
  unfold framesDue, accumulated in Hr. rewrite Hr. simpl.
  destruct (_ <? 1); eexists; reflexivity.
Qed.

(** Without a session a tick only arms the first-frame flag and suspends
    the main loop. *)
Lemma runLoop_unloaded (events : list SDL_Event) (now : Q) (r : mEmscriptenRenderer) :
  core r = None ->
  exists r', runLoop events now r = Ok r' /\
    core r' = None /\ renderFirstFrame r' = true /\ mainLoopPaused r' = true /\
    frameTime r' = frameTime r.
Proof.
  intros Hc. unfold runLoop.
  destruct (pollEvents_ok (delivered events) r) as (r0 & E0 & K0).
  rewrite E0. simpl. destruct K0 as (Kft & Kll & Krf & Kfr & Kld).
  destruct (core r0) as [c0 |] eqn:Ec0.
  - assert (Hl : loaded r0) by (unfold loaded; congruence).
    apply Kld in Hl. unfold loaded in Hl. congruence.
  - eexists. split; [reflexivity |]. simpl. auto.
Qed.

(* ===================================================================== *)
(** ** Lifecycle entry points *)
(* ===================================================================== *)

Lemma loadGame_cases (env : LoadEnv) (name : string) (r : mEmscriptenRenderer) :
  exists r' b, loadGame env name r = Ok (r', b) /\
    frameTime r' = frameTime r /\
    lastLoopTime r' = lastLoopTime r /\
    renderFirstFrame r' = renderFirstFrame r /\
    fastForwardSpeed r' = fastForwardSpeed r /\
    match mCoreFind env name with
    | None => b = false /\ core r' = None
    | Some c => b = true /\ loaded r' /\
                exists c', core r' = Some c' /\
                  romLoaded c' = mCoreLoadFile env name /\
                  framesRun c' = framesRun c
    end.
Proof.
  unfold loadGame.
  destruct (core r) as [c0 |]; simpl;
    destruct (mCoreFind env name) as [c |]; simpl;
    eexists _, _; (split; [reflexivity |]); simpl;
    repeat split; unfold loaded; simpl; try congruence;
    eexists; split; reflexivity || (split; reflexivity).
Qed.

Lemma resumeGame_cases (r r' : mEmscriptenRenderer) :
  resumeGame r = Ok r' ->
  loaded r /\ core r' = core r /\
  frameTime r' = frameTime r /\
  lastLoopTime r' = lastLoopTime r /\
  renderFirstFrame r' = renderFirstFrame r /\
  fastForwardSpeed r' = fastForwardSpeed r /\
  mainLoopPaused r' = false.
Proof.
  unfold resumeGame, deref, loaded.
  destruct (core r) as [c |] eqn:Ec; simpl; [| discriminate].
  destruct (default (-1) (mCoreConfigGetIntValue c "volume") >? 0);
    intros H; inversion H; subst r'; simpl; rewrite ?Ec;
    repeat split; congruence.
Qed.

Lemma pauseGame_cases (r : mEmscriptenRenderer) :
  exists r', pauseGame r = Ok r' /\
    core r' = core r /\
    frameTime r' = frameTime r /\
    lastLoopTime r' = lastLoopTime r /\
    renderFirstFrame r' = true /\
    fastForwardSpeed r' = fastForwardSpeed r /\
    audioPaused (audio r') = true /\
    mainLoopPaused r' = true.
Proof. unfold pauseGame. eexists. split; [reflexivity |]. simpl. tauto. Qed.

Lemma quickReload_cases (r r' : mEmscriptenRenderer) :
  quickReload r = Ok r' ->
  loaded r /\ loaded r' /\
  frameTime r' = frameTime r /\
  lastLoopTime r' = lastLoopTime r /\
  renderFirstFrame r' = true /\
  fastForwardSpeed r' = fastForwardSpeed r.
Proof.
  unfold quickReload, deref, loaded. simpl.
  destruct (core r) as [c |] eqn:Ec; simpl; [| discriminate].
  intros H; inversion H; subst r'; simpl. repeat split; congruence.
Qed.

Lemma quitGame_cases (r : mEmscriptenRenderer) :
  exists r', quitGame r = Ok r' /\
    core r' = None /\
    frameTime r' = frameTime r /\
    lastLoopTime r' = lastLoopTime r /\
    fastForwardSpeed r' = fastForwardSpeed r /\
    (loaded r -> renderFirstFrame r' = true /\
                 audioPaused (audio r') = true /\ mainLoopPaused r' = true) /\
    (core r = None -> r' = r).
Proof.
  unfold quitGame, loaded.
  destruct (core r) as [c |] eqn:Ec; eexists; (split; [reflexivity |]); simpl;
    repeat split; congruence.
Qed.

(* ===================================================================== *)
(** ** The first tick after a load or a resume *)
(* ===================================================================== *)

(** While the first-frame flag is set, a tick on a loaded session runs one
    frame and clears the flag if a frame is due, and otherwise runs nothing
    and leaves the flag set. *)
Lemma runLoop_first_frame (events : list SDL_Event) (now : Q)
    (r r' : mEmscriptenRenderer) :
  loaded r ->
  renderFirstFrame r = true ->
  runLoop events now r = Ok r' ->
  framesExecuted r r' = (if 1 <=? framesDue now r then 1%N else 0%N) /\
  renderFirstFrame r' = (framesDue now r <? 1).
Proof.
  intros Hl Hflag Hrun.
  destruct (runLoop_loaded events now r r' Hl Hrun)
    as (r0 & _ & _ & _ & _ & _ & _ & Hnone & Hsome).
  unfold framesExecuted.
  destruct (Z.leb_spec 1 (framesDue now r)) as [Hge | Hlt].
  - destruct (Hsome Hge) as (_ & Hrf & Hfr).
    rewrite Hflag in Hfr. rewrite Hfr, Hrf. split; [lia |].
    symmetry. apply Z.ltb_ge. exact Hge.
  - destruct (Hnone Hlt) as (_ & Hrf & Hfr).
    rewrite Hfr, Hrf, Hflag. split; [lia |].
    symmetry. apply Z.ltb_lt. exact Hlt.
Qed.

(** C1, as stated, fails: right after a successful [loadGame] at startup, a
    tick whose clock reading equals the last one recorded (elapsed time 0)
    returns before any frame is run; and a [loadGame] over a running
    session, which leaves the first-frame flag clear, is followed by a tick
    that runs the two frames that are due. *)
Lemma first_tick_not_always_one_frame :
  (exists r r',
     loadGame sampleEnv "game.gba" main = Ok (r, true) /\
     runLoop nil (lastLoopTime r) r = Ok r' /\
     framesExecuted r r' = 0%N /\
     framesExecuted r r' <> 1%N) /\
  (exists r r',
     loadGame sampleEnv "game.gba" sampleIdle = Ok (r, true) /\
     runLoop nil 145 r = Ok r' /\
     framesExecuted r r' = 2%N /\
     framesExecuted r r' <> 1%N).
Proof.
  split; eexists _, _.
  - split; [vm_compute; reflexivity |].
    split; [vm_compute; reflexivity |].
    split; [vm_compute; reflexivity | vm_compute; discriminate].
  - split; [vm_compute; reflexivity |].
    split; [vm_compute; reflexivity |].
    split; [vm_compute; reflexivity | vm_compute; discriminate].
Qed.

(** C1, amended: in a state reached by a successful [loadGame] or by
    [resumeGame] from a state whose first-frame flag is set (neither of the
    two clears it), the next tick runs exactly one frame when the
    accumulated time, with its 0.2 ms bias, amounts to a frame, and runs no
    frame, leaving the flag set, when it does not. *)
Theorem first_tick_after_load_or_resume (events : list SDL_Event) (now : Q)
    (r0 r r' : mEmscriptenRenderer) :
  (exists env name, loadGame env name r0 = Ok (r, true)) \/ resumeGame r0 = Ok r ->
  renderFirstFrame r0 = true ->
  runLoop events now r = Ok r' ->
  framesExecuted r r' = (if 1 <=? framesDue now r then 1%N else 0%N) /\
  renderFirstFrame r' = (framesDue now r <? 1).
Proof.
  intros Hfrom Hflag Hrun.
  assert (Hr : loaded r /\ renderFirstFrame r = true).
  { destruct Hfrom as [(env & name & Hload) | Hres].
    - destruct (loadGame_cases env name r0) as (r1 & b & E & _ & _ & Hrf & _ & Hfind).
      rewrite Hload in E. inversion E; subst r1 b; clear E.
      destruct (mCoreFind env name) as [c |].
      + destruct Hfind as (_ & Hl & _). split; [exact Hl | congruence].
      + destruct Hfind as (Hb & _). discriminate.
    - destruct (resumeGame_cases r0 r Hres) as (Hl & Hc & _ & _ & Hrf & _).
      split; [unfold loaded in *; congruence | congruence]. }
  destruct Hr as (Hl & Hrf).
  exact (runLoop_first_frame events now r r' Hl Hrf Hrun).
Qed.

Lemma first_tick_after_load_or_resume_witness :
  (loadGame sampleEnv "game.gba" main = Ok (sampleLoaded, true) /\
   runLoop nil 100 sampleLoaded = Ok sampleRunning /\
   framesDue 100 sampleLoaded = 6 /\
   framesExecuted sampleLoaded sampleRunning = 1%N /\
   renderFirstFrame sampleRunning = false) /\
  (resumeGame samplePaused = Ok sampleResumed /\
   runLoop nil 100 sampleResumed = Ok sampleResumed /\
   framesDue 100 sampleResumed = 0 /\
   framesExecuted sampleResumed sampleResumed = 0%N /\
   renderFirstFrame sampleResumed = true).
Proof.
  assert (Hload : loadGame sampleEnv "game.gba" main = Ok (sampleLoaded, true))
    by (vm_compute; reflexivity).
  assert (Htick : runLoop nil 100 sampleLoaded = Ok sampleRunning)
    by (vm_compute; reflexivity).
  assert (Hresume : resumeGame samplePaused = Ok sampleResumed)
    by (vm_compute; reflexivity).
  assert (Hidle : runLoop nil 100 sampleResumed = Ok sampleResumed)
    by (vm_compute; reflexivity).
  split.
  - split; [exact Hload |]. split; [exact Htick |].
    split; [vm_compute; reflexivity |].
    exact (first_tick_after_load_or_resume nil 100 main sampleLoaded sampleRunning
             (or_introl (ex_intro _ sampleEnv (ex_intro _ "game.gba"%string Hload)))
             eq_refl Htick).
  - split; [exact Hresume |]. split; [exact Hidle |].
    split; [vm_compute; reflexivity |].
    exact (first_tick_after_load_or_resume nil 100 samplePaused sampleResumed
             sampleResumed (or_intror Hresume) eq_refl Hidle).
Defined.

(* ===================================================================== *)
(** ** Entry points without a session *)
(* ===================================================================== *)

(** C2: on a null handle [buttonPress] and [saveState] are guarded and
    [pauseGame] never reads the handle, but [quickReload] calls
    [renderer.core->reset] unguarded and faults. *)
Theorem session_operations_without_session (r : mEmscriptenRenderer) :
  core r = None ->
  quickReload r = Fault NullDeref /\
  (forall id, buttonPress id r = Ok r) /\
  (forall slot engine, saveState slot engine r = Ok (r, false)) /\
  (exists r', pauseGame r = Ok r' /\ core r' = None).
Proof.
  intros Hc. unfold quickReload, buttonPress, saveState, pauseGame, deref.
  simpl. rewrite Hc. simpl. repeat split.
  eexists. split; [reflexivity | exact Hc].
Qed.

Lemma session_operations_without_session_witness :
  quickReload main = Fault NullDeref /\
  (forall id, buttonPress id main = Ok main) /\
  (forall slot engine, saveState slot engine main = Ok (main, false)) /\
  (exists r', pauseGame main = Ok r' /\ core r' = None).
Proof.
  apply (session_operations_without_session main). reflexivity.
Defined.

(* ===================================================================== *)
(** ** Frame pacing across the lifecycle *)
(* ===================================================================== *)

(** C3, as stated, fails: no lifecycle operation touches the accumulator,
    and [loadGame] does not touch the first-frame flag.  In the sample
    session, 5 ms after a frame ran, the accumulator holds 5 ms and the
    flag is clear; [quickReload] leaves the 5 ms in place, and a [loadGame]
    over the running session leaves both as they are. *)
Lemma lifecycle_keeps_accumulator :
  (frameTime sampleIdle == 5)%Q /\
  renderFirstFrame sampleIdle = false /\
  (exists r', quickReload sampleIdle = Ok r' /\
     (frameTime r' == 5)%Q /\ ~ (frameTime r' == 0)%Q) /\
  (exists r', loadGame sampleEnv "game.gba" sampleIdle = Ok (r', true) /\
     ~ (frameTime r' == 0)%Q /\ renderFirstFrame r' = false).
Proof.
  split; [vm_compute; reflexivity |].
  split; [vm_compute; reflexivity |].
  split; eexists; (split; [vm_compute; reflexivity |]).
  - split; [vm_compute; reflexivity | vm_compute; discriminate].
  - split; [vm_compute; discriminate | vm_compute; reflexivity].
Qed.

(** C3, amended: [quickReload], [pauseGame] followed by [resumeGame], and
    [quitGame] on a loaded session each leave the first-frame flag set; a
    [loadGame] leaves it set if it was set; and none of the four changes
    the accumulator. *)
Theorem lifecycle_pacing (r : mEmscriptenRenderer) :
  (forall env name r' b,
     loadGame env name r = Ok (r', b) ->
     frameTime r' = frameTime r /\
     (renderFirstFrame r = true -> renderFirstFrame r' = true)) /\
  (forall r',
     quickReload r = Ok r' ->
     frameTime r' = frameTime r /\ renderFirstFrame r' = true) /\
  (forall r1 r',
     pauseGame r = Ok r1 -> resumeGame r1 = Ok r' ->
     frameTime r' = frameTime r /\ renderFirstFrame r' = true) /\
  (forall r',
     loaded r -> quitGame r = Ok r' ->
     frameTime r' = frameTime r /\ renderFirstFrame r' = true).
Proof.
  split; [| split; [| split]].
  - intros env name r' b Hload.
    destruct (loadGame_cases env name r) as (r1 & b1 & E & Hft & _ & Hrf & _).
    rewrite Hload in E. inversion E; subst r1 b1.
    split; [exact Hft | congruence].
  - intros r' Hreset.
    destruct (quickReload_cases r r' Hreset) as (_ & _ & Hft & _ & Hrf & _).
    split; assumption.
  - intros r1 r' Hpause Hresume.
    destruct (pauseGame_cases r) as (r2 & E & _ & Hft & _ & Hrf & _).
    rewrite Hpause in E. inversion E; subst r2.
    destruct (resumeGame_cases r1 r' Hresume) as (_ & _ & Hft' & _ & Hrf' & _).
    split; congruence.
  - intros r' Hl Hquit.
    destruct (quitGame_cases r) as (r2 & E & _ & Hft & _ & _ & Hflag & _).
    rewrite Hquit in E. inversion E; subst r2.
    split; [exact Hft | apply Hflag; exact Hl].
Qed.

Lemma lifecycle_pacing_witness :
  (frameTime sampleResumed = frameTime sampleRunning /\
   renderFirstFrame sampleResumed = true) /\
  (exists r', quickReload sampleIdle = Ok r' /\
     frameTime r' = frameTime sampleIdle /\ renderFirstFrame r' = true).
Proof.
  split.
  - apply (proj1 (proj2 (proj2 (lifecycle_pacing sampleRunning))) samplePaused);
      vm_compute; reflexivity.
  - eexists. split; [vm_compute; reflexivity |].
    apply (proj1 (proj2 (lifecycle_pacing sampleIdle))).
    vm_compute. reflexivity.
Defined.

(** X2: [quitGame] ends without a session, and a second [quitGame] changes
    nothing more. *)
Lemma quitGame_idempotent (r : mEmscriptenRenderer) :
  exists r', quitGame r = Ok r' /\ core r' = None /\ quitGame r' = Ok r'.
Proof.
  destruct (quitGame_cases r) as (r' & E & Hc & _).
  exists r'. split; [exact E |]. split; [exact Hc |].
  destruct (quitGame_cases r') as (r'' & E' & _ & _ & _ & _ & _ & Hsame).
  rewrite E'. f_equal. apply Hsame. exact Hc.
Qed.

(* ===================================================================== *)
(** ** Failure of a load *)
(* ===================================================================== *)

(** C4, as stated, fails: the answer of [mCoreLoadFile] is dropped, so an
    image that does not load into the machine found for it still yields
    success and a session. *)
Lemma loadGame_succeeds_without_image :
  mCoreLoadFile brokenImageEnv "game.gba" = false /\
  exists r' c',
    loadGame brokenImageEnv "game.gba" main = Ok (r', true) /\
    core r' = Some c' /\ romLoaded c' = false.
Proof.
  split; [reflexivity |]. eexists _, _.
  split; [vm_compute; reflexivity |].
  split; reflexivity.
Qed.

(** C4, amended: [loadGame] returns failure exactly when [mCoreFind] yields
    no machine for the name, and then no session handle is set (a session
    that was loaded before is gone as well); when it yields one, [loadGame]
    returns success with a session set. *)
Theorem loadGame_fails_without_machine (env : LoadEnv) (name : string)
    (r : mEmscriptenRenderer) :
  exists r' b,
    loadGame env name r = Ok (r', b) /\
    (b = false <-> mCoreFind env name = None) /\
    (b = false -> core r' = None) /\
    (b = true -> loaded r').
Proof.
  destruct (loadGame_cases env name r) as (r' & b & E & _ & _ & _ & _ & Hfind).
  exists r', b. split; [exact E |].
  destruct (mCoreFind env name) as [c |].
  - destruct Hfind as (Hb & Hl & _). subst b.
    repeat split; try discriminate; auto.
  - destruct Hfind as (Hb & Hc). subst b.
    repeat split; try discriminate; auto.
Qed.

Lemma loadGame_fails_without_machine_witness :
  exists r' b,
    loadGame emptyEnv "game.gba" sampleRunning = Ok (r', b) /\
    (b = false <-> mCoreFind emptyEnv "game.gba" = None) /\
    (b = false -> core r' = None) /\
    (b = true -> loaded r').
Proof.
  exact (loadGame_fails_without_machine emptyEnv "game.gba" sampleRunning).
Defined.

(* ===================================================================== *)
(** ** The accumulator *)
(* ===================================================================== *)

Lemma targetFrameTime_value : (targetFrameTime == 50 # 3)%Q.
Proof. reflexivity. Qed.

Lemma div_targetFrameTime (x : Q) : (x / targetFrameTime * (50 # 3) == x)%Q.
Proof. rewrite targetFrameTime_value. field. Qed.

(** Taking the frames due out of the accumulator leaves less than a frame. *)
Lemma normalized_bounds (now : Q) (r : mEmscriptenRenderer) :
  1 <= framesDue now r ->
  (0 <= normalized now r (framesDue now r))%Q /\
  (normalized now r (framesDue now r) < targetFrameTime)%Q.
Proof.
  intros Hn. unfold normalized.
  destruct (trunc_bounds _ Hn) as [Hlo Hhi]. fold (framesDue now r) in Hlo, Hhi.
  pose proof (div_targetFrameTime (accumulated now r + (2 # 10))) as Hd.
  set (q := ((accumulated now r + (2 # 10)) / targetFrameTime)%Q) in *.
  destruct (Dbl.ltb (accumulated now r - inject_Z (framesDue now r) * targetFrameTime) 0)
    eqn:Eneg.
  - rewrite targetFrameTime_value. split; lra.
  - apply ltb_ge in Eneg. split; [exact Eneg |].
    rewrite targetFrameTime_value in *. lra.
Qed.

(** C5: after a tick of a loaded session that ran at least one frame the
    accumulator lies in [0, targetFrameTime); and a tick never makes the
    accumulator negative when the clock does not run backwards. *)
Theorem accumulator_normalized (events : list SDL_Event) (now : Q)
    (r r' : mEmscriptenRenderer) :
  loaded r ->
  runLoop events now r = Ok r' ->
  ((1 <= framesExecuted r r')%N ->
     (0 <= frameTime r')%Q /\ (frameTime r' < targetFrameTime)%Q) /\
  ((0 <= frameTime r)%Q -> (lastLoopTime r <= now)%Q -> (0 <= frameTime r')%Q).
Proof.
  intros Hl Hrun.
  destruct (runLoop_loaded events now r r' Hl Hrun)
    as (r0 & _ & _ & _ & _ & _ & _ & Hnone & Hsome).
  destruct (Z.lt_ge_cases (framesDue now r) 1) as [Hlt | Hge].
  - destruct (Hnone Hlt) as (Hft & _ & Hfr). split.
    + unfold framesExecuted. rewrite Hfr. lia.
    + intros H0 Hclock. rewrite Hft. unfold accumulated. lra.
  - destruct (Hsome Hge) as (Hft & _ & _).
    destruct (normalized_bounds now r Hge) as [Hlo Hhi].
    rewrite Hft. split; [intros _; split; assumption | intros _ _; exact Hlo].
Qed.

Lemma accumulator_normalized_witness :
  loaded sampleIdle /\
  runLoop nil 125 sampleIdle = Ok sampleStepped /\
  (1 <= framesExecuted sampleIdle sampleStepped)%N /\
  (0 <= frameTime sampleStepped)%Q /\
  (frameTime sampleStepped < targetFrameTime)%Q.
Proof.
  assert (Hl : loaded sampleIdle) by (vm_compute; discriminate).
  assert (Hrun : runLoop nil 125 sampleIdle = Ok sampleStepped)
    by (vm_compute; reflexivity).
  assert (Hfr : (1 <= framesExecuted sampleIdle sampleStepped)%N)
    by (vm_compute; discriminate).
  split; [exact Hl |]. split; [exact Hrun |]. split; [exact Hfr |].
  exact (proj1 (accumulator_normalized nil 125 sampleIdle sampleStepped Hl Hrun) Hfr).
Defined.

(* ===================================================================== *)
(** ** The cap on frames per tick *)
(* ===================================================================== *)

Lemma wrap32_in_range (z : Z) :
  Int32.min_signed <= z <= Int32.max_signed -> Int32.wrap32 z = z.
Proof.
  unfold Int32.wrap32, Int32.min_signed, Int32.max_signed,
    Int32.half_modulus, Int32.modulus.
  intros H. rewrite Z.mod_small; lia.
Qed.

(** As long as the product of the frames due and the speed fits [int], the
    number of frames handed to the loop lies between 1 and 20. *)
Lemma framesToRun_capped (n speed : Z) :
  1 <= n <= Int32.max_signed ->
  n * speed <= Int32.max_signed ->
  1 <= framesToRun n speed <= 20.
Proof.
  intros Hn Hprod. unfold framesToRun.
  destruct (speed >? 1) eqn:Es.
  - apply Z.gtb_lt in Es.
    rewrite wrap32_in_range
      by (unfold Int32.min_signed, Int32.max_signed, Int32.half_modulus in *; nia).
    destruct (n * speed >? 20) eqn:Ec; [lia |].
    rewrite Z.gtb_ltb in Ec. apply Z.ltb_ge in Ec. nia.
  - destruct (n >? 20) eqn:Ec; [lia |].
    rewrite Z.gtb_ltb in Ec. apply Z.ltb_ge in Ec. lia.
Qed.

(** X1: a tick runs at most 20 frames, however long the time since the
    last one, when the fast-forward speed times one frame more than are
    due fits [int]. *)
Lemma runLoop_frames_capped (events : list SDL_Event) (now : Q)
    (r r0 r' : mEmscriptenRenderer) :
  loaded r ->
  pollEvents (delivered events) r = Ok r0 ->
  runLoop events now r = Ok r' ->
  (framesDue now r + 1) * fastForwardSpeed r0 <= Int32.max_signed ->
  (framesExecuted r r' <= 20)%N.
Proof.
  intros Hl Hpoll Hrun Hroom.
  destruct (runLoop_loaded events now r r' Hl Hrun)
    as (r1 & E1 & _ & Hrange & _ & _ & _ & Hnone & Hsome).
  rewrite Hpoll in E1. inversion E1; subst r1; clear E1.
  unfold framesExecuted.
  destruct (Z.lt_ge_cases (framesDue now r) 1) as [Hlt | Hge].
  - destruct (Hnone Hlt) as (_ & _ & Hfr). rewrite Hfr. lia.
  - destruct (Hsome Hge) as (_ & _ & Hfr). rewrite Hfr.
    destruct (renderFirstFrame r); [lia |].
    assert (Hn : 1 <= framesDue now r <= Int32.max_signed).
    { unfold Int32.in_range in Hrange.
      apply andb_prop in Hrange. destruct Hrange as [_ Hmax].
      apply Z.leb_le in Hmax. lia. }
    assert (Hprod : framesDue now r * fastForwardSpeed r0 <= Int32.max_signed).
    { destruct (Z.le_gt_cases (fastForwardSpeed r0) 1); nia. }
    pose proof (framesToRun_capped _ _ Hn Hprod) as Hcap.
    unfold Int32.to_Uint32, Int32.modulus.
    rewrite Z.mod_small by lia. lia.
Qed.

Lemma runLoop_frames_capped_witness :
  runLoop nil 5100 sampleRunning = Ok sampleStalled /\
  framesDue 5100 sampleRunning = 300 /\
  framesExecuted sampleRunning sampleStalled = 20%N /\
  (framesExecuted sampleRunning sampleStalled <= 20)%N.
Proof.
  assert (Hl : loaded sampleRunning) by (vm_compute; discriminate).
  assert (Hrun : runLoop nil 5100 sampleRunning = Ok sampleStalled)
    by (vm_compute; reflexivity).
  split; [exact Hrun |]. split; [vm_compute; reflexivity |].
  split; [vm_compute; reflexivity |].
  apply (runLoop_frames_capped nil 5100 sampleRunning sampleRunning sampleStalled Hl
           eq_refl Hrun).
  vm_compute. discriminate.
Defined.

(** C6: the cap is applied after the multiplication by the fast-forward
    speed, in [int].  With the speed set to 2147483647 through
    [setFastForwardMultiplier] and two frames due, the product wraps to -2,
    passes the test against 20, and the loop, which compares in [Uint32],
    runs 4294967294 frames in one tick. *)
Theorem frame_cap_overflow :
  setFastForwardMultiplier 2147483647 sampleRunning = Ok sampleFast /\
  renderFirstFrame sampleFast = false /\
  framesDue 134 sampleFast = 2 /\
  framesToRun 2 (fastForwardSpeed sampleFast) = -2 /\
  exists r',
    runLoop nil 134 sampleFast = Ok r' /\
    framesExecuted sampleFast r' = 4294967294%N.
Proof.
  split; [vm_compute; reflexivity |].
  split; [vm_compute; reflexivity |].
  split; [vm_compute; reflexivity |].
  split; [vm_compute; reflexivity |].
  assert (Hl : loaded sampleFast) by (vm_compute; discriminate).
  destruct (runLoop_total nil 134 sampleFast Hl) as [r' Hrun];
    [vm_compute; reflexivity |].
  exists r'. split; [exact Hrun |].
  destruct (runLoop_loaded nil 134 sampleFast r' Hl Hrun)
    as (r0 & E0 & _ & _ & _ & _ & _ & _ & Hsome).
  change (Ok sampleFast = Ok r0) in E0. inversion E0; subst r0; clear E0.
  destruct Hsome as (_ & _ & Hfr); [vm_compute; discriminate |].
  unfold framesExecuted. rewrite Hfr. vm_compute. reflexivity.
Qed.

(* ===================================================================== *)
(** ** Volume *)
(* ===================================================================== *)

(** A volume that compares below 0 or above 2.0, an infinity included,
    leaves the whole state as it is, with or without a session, so
    [getVolume] answers as before; the call returns normally. *)
Lemma setVolume_out_of_range (vol : float) (r : mEmscriptenRenderer) :
  Flt.ltb vol (Finite 0) = true \/ Flt.ltb (Finite 2) vol = true ->
  setVolume vol r = Ok r /\
  (forall r', setVolume vol r = Ok r' ->
     getVolume r' = getVolume r /\ audio r' = audio r /\ core r' = core r).
Proof.
  intros Hout.
  assert (Hset : setVolume vol r = Ok r).
  { unfold setVolume.
    destruct Hout as [Hneg | Hbig].
    - rewrite Hneg. rewrite orb_true_r. reflexivity.
    - rewrite Hbig. reflexivity. }
  split; [exact Hset |].
  intros r' Hr'. rewrite Hset in Hr'. inversion Hr'; subst r'. auto.
Qed.

Lemma setVolume_out_of_range_witness :
  (setVolume (Finite (21 # 10)) sampleQuiet = Ok sampleQuiet /\
   setVolume (Finite (-1 # 10)) sampleQuiet = Ok sampleQuiet /\
   setVolume (Infinity false) sampleQuiet = Ok sampleQuiet) /\
  getVolume sampleQuiet = Ok (inject_Z 128 / 256)%Q.
Proof.
  split; [split; [| split] |].
  - apply (setVolume_out_of_range (Finite (21 # 10)) sampleQuiet).
    right. reflexivity.
  - apply (setVolume_out_of_range (Finite (-1 # 10)) sampleQuiet).
    left. reflexivity.
  - apply (setVolume_out_of_range (Infinity false) sampleQuiet).
    right. reflexivity.
  - vm_compute. reflexivity.
Defined.

(** C7: NaN lies outside [0, 2.0] and yet passes the guard, since it
    compares neither above 2.0 nor below 0.  On a session whose volume is
    0.5 the call stores what the conversion of NaN to [int] yields, so
    [getVolume] no longer answers 0.5; without a session nothing is
    stored. *)
Theorem setVolume_nan_passes_guard :
  Flt.ltb (Finite 2) NaN = false /\
  Flt.ltb NaN (Finite 0) = false /\
  Flt.to_int (Flt.mul NaN (Finite 0x100)) = -2147483648 /\
  getVolume sampleQuiet = Ok (inject_Z 128 / 256)%Q /\
  (exists r' c' v,
     setVolume NaN sampleQuiet = Ok r' /\
     r' <> sampleQuiet /\
     core r' = Some c' /\
     volume (opts c') = -2147483648 /\
     mCoreConfigGetIntValue c' "volume" = Some (-2147483648) /\
     getVolume r' = Ok v /\ (v == -8388608)%Q) /\
  setVolume NaN main = Ok main.
Proof.
  split; [reflexivity |]. split; [reflexivity |]. split; [reflexivity |].
  split; [vm_compute; reflexivity |].
  split; [| reflexivity].
  eexists _, _, _. split; [vm_compute; reflexivity |].
  split; [vm_compute; discriminate |].
  split; [reflexivity |].
  split; [vm_compute; reflexivity |].
  split; [vm_compute; reflexivity |].
  split; [vm_compute; reflexivity | vm_compute; reflexivity].
Qed.

(* ===================================================================== *)
(** ** Fast forward *)
(* ===================================================================== *)

Lemma setFastForwardMultiplier_loaded (m : Z) (r : mEmscriptenRenderer) (c : mCore) :
  core r = Some c ->
  0 < m ->
  setFastForwardMultiplier m r =
    Ok (set_core
          (Some (reloadConfigOption "frameskip"
                   (mCoreConfigSetDefaultIntValue "frameskip" (m - 1) c)))
          (set_audio (set_fpsTarget (60 * inject_Z m)%Q (audio r))
             (set_fastForwardSpeed m r))).
Proof.
  intros Hc Hm. unfold setFastForwardMultiplier, deref.
  assert (Hgt : (m >? 0) = true) by (apply Z.gtb_lt; lia).
  rewrite Hgt. simpl. rewrite Hc. reflexivity.
Qed.

Lemma setFastForwardMultiplier_ignored (m : Z) (r : mEmscriptenRenderer) :
  m <= 0 -> setFastForwardMultiplier m r = Ok r.
Proof.
  intros Hm. unfold setFastForwardMultiplier.
  assert (Hgt : (m >? 0) = false) by (rewrite Z.gtb_ltb; apply Z.ltb_ge; lia).
  rewrite Hgt. reflexivity.
Qed.

(** The speed is written by [setFastForwardMultiplier] and by the [f] key
    only: events that carry no [f] leave it alone, *)
Lemma pollEvents_keeps_speed (events : list SDL_Event) (r r' : mEmscriptenRenderer) :
  Forall (fun e => sym e <> SDLK_f) events ->
  pollEvents events r = Ok r' ->
  fastForwardSpeed r' = fastForwardSpeed r.
Proof.
  intros Hno. revert r. induction Hno as [| event rest Hev _ IH]; intros r Hpoll.
  - inversion Hpoll. reflexivity.
  - simpl in Hpoll.
    destruct ((type event =? SDL_KEYDOWN) || (type event =? SDL_KEYUP)).
    + destruct (core r) as [c |] eqn:Ec; simpl in Hpoll.
      * unfold handleKeypressCore, deref in Hpoll.
        apply Z.eqb_neq in Hev. rewrite Hev, Ec in Hpoll.
        destruct (Z.land (kmod event) (Z.lnot (Z.lor KMOD_NUM KMOD_CAPS)) =? 0);
          simpl in Hpoll.
        -- destruct (negb (mInputMapKey c (sym event) =? -1)); simpl in Hpoll.
           ++ destruct (type event =? SDL_KEYDOWN); simpl in Hpoll;
                apply IH in Hpoll; exact Hpoll.
           ++ apply IH in Hpoll. exact Hpoll.
        -- apply IH in Hpoll. exact Hpoll.
      * apply IH in Hpoll. exact Hpoll.
    + simpl in Hpoll. apply IH in Hpoll. exact Hpoll.
Qed.

(** ... and so does a whole tick of a loaded session. *)
Lemma runLoop_keeps_speed (events : list SDL_Event) (now : Q)
    (r r' : mEmscriptenRenderer) :
  loaded r ->
  Forall (fun e => sym e <> SDLK_f) events ->
  runLoop events now r = Ok r' ->
  getFastForwardMultiplier r' = getFastForwardMultiplier r.
Proof.
  intros Hl Hno Hrun.
  destruct (runLoop_loaded events now r r' Hl Hrun)
    as (r0 & E0 & _ & _ & _ & _ & Hsp & _).
  unfold getFastForwardMultiplier. rewrite Hsp.
  apply (pollEvents_keeps_speed (delivered events)); [| exact E0].
  unfold delivered. rewrite List.Forall_forall in *. intros e He.
  apply Hno. apply List.filter_In in He. tauto.
Qed.

(** C8: on a loaded session a positive multiplier becomes the speed that
    [getFastForwardMultiplier] reports and rescales the audio frame-rate
    target to 60 times itself; a multiplier that is not positive changes
    nothing. *)
Theorem setFastForwardMultiplier_speed (m : Z) (r : mEmscriptenRenderer) :
  loaded r ->
  (0 < m ->
     exists r', setFastForwardMultiplier m r = Ok r' /\
       getFastForwardMultiplier r' = m /\
       fpsTarget (audio r') = (60 * inject_Z m)%Q /\
       loaded r') /\
  (m <= 0 -> setFastForwardMultiplier m r = Ok r).
Proof.
  unfold loaded. intros Hl. split.
  - intros Hm. destruct (core r) as [c |] eqn:Ec; [| congruence].
    rewrite (setFastForwardMultiplier_loaded m r c Ec Hm).
    eexists. split; [reflexivity |]. simpl. repeat split. discriminate.
  - apply setFastForwardMultiplier_ignored.
Qed.

Lemma setFastForwardMultiplier_speed_witness :
  (exists r', setFastForwardMultiplier 3 sampleRunning = Ok r' /\
     getFastForwardMultiplier r' = 3 /\
     fpsTarget (audio r') = (60 * inject_Z 3)%Q /\
     loaded r') /\
  setFastForwardMultiplier 0 sampleRunning = Ok sampleRunning.
Proof.
  assert (Hl : loaded sampleRunning) by (vm_compute; discriminate).
  split.
  - apply (proj1 (setFastForwardMultiplier_speed 3 sampleRunning Hl)). lia.
  - apply (proj2 (setFastForwardMultiplier_speed 0 sampleRunning Hl)). lia.
Defined.

(** C9: a key event whose keysym is [f] sets the speed to 2 when it is a
    key-down and to 1 otherwise, whatever modifiers it carries, and changes
    nothing else: the machine sees no key. *)
Theorem fast_forward_key_intercepted (event : SDL_Event) (r : mEmscriptenRenderer) :
  sym event = SDLK_f ->
  handleKeypressCore event r =
    Ok (set_fastForwardSpeed (if type event =? SDL_KEYDOWN then 2 else 1) r) /\
  (forall r', handleKeypressCore event r = Ok r' ->
     core r' = core r /\
     (type event = SDL_KEYDOWN -> getFastForwardMultiplier r' = 2) /\
     (type event = SDL_KEYUP -> getFastForwardMultiplier r' = 1)).
Proof.
  intros Hsym.
  assert (Hk : handleKeypressCore event r =
    Ok (set_fastForwardSpeed (if type event =? SDL_KEYDOWN then 2 else 1) r)).
  { unfold handleKeypressCore. rewrite Hsym, Z.eqb_refl. reflexivity. }
  split; [exact Hk |].
  intros r' Hr'. rewrite Hk in Hr'. inversion Hr'; subst r'; clear Hr'.
  unfold getFastForwardMultiplier. simpl. repeat split.
  - intros Ht. rewrite Ht. reflexivity.
  - intros Ht. rewrite Ht. reflexivity.
Qed.

Lemma fast_forward_key_intercepted_witness :
  Z.land (kmod ctrlF) (Z.lnot (Z.lor KMOD_NUM KMOD_CAPS)) <> 0 /\
  handleKeypressCore ctrlF sampleRunning =
    Ok (set_fastForwardSpeed 2 sampleRunning).
Proof.
  split; [vm_compute; discriminate |].
  apply (proj1 (fast_forward_key_intercepted ctrlF sampleRunning eq_refl)).
Defined.

(** Any other key that carries a modifier besides NumLock and CapsLock is
    dropped by the filter that the [f] key bypasses. *)
Lemma modified_key_ignored (event : SDL_Event) (r : mEmscriptenRenderer) :
  sym event <> SDLK_f ->
  Z.land (kmod event) (Z.lnot (Z.lor KMOD_NUM KMOD_CAPS)) <> 0 ->
  handleKeypressCore event r = Ok r.
Proof.
  intros Hsym Hmod. unfold handleKeypressCore.
  apply Z.eqb_neq in Hsym. apply Z.eqb_neq in Hmod.
  rewrite Hsym, Hmod. reflexivity.
Qed.

(** C10: on a loaded session a positive multiplier [m] stores [m - 1] as
    the configuration value of "frameskip" and reloads the option, so the
    machine's active frameskip is [m - 1]: 0 at normal speed. *)
Theorem setFastForwardMultiplier_frameskip (m : Z) (r : mEmscriptenRenderer) :
  loaded r ->
  0 < m ->
  exists r' c',
    setFastForwardMultiplier m r = Ok r' /\
    core r' = Some c' /\
    mCoreConfigGetIntValue c' "frameskip" = Some (m - 1) /\
    frameskip (opts c') = m - 1.
Proof.
  unfold loaded. intros Hl Hm.
  destruct (core r) as [c |] eqn:Ec; [| congruence].
  rewrite (setFastForwardMultiplier_loaded m r c Ec Hm).
  eexists _, _. split; [reflexivity |]. split; [reflexivity |].
  assert (Hget : mCoreConfigGetIntValue
                   (mCoreConfigSetDefaultIntValue "frameskip" (m - 1) c)
                   "frameskip" = Some (m - 1)).
  { unfold mCoreConfigGetIntValue, mCoreConfigSetDefaultIntValue. simpl.
    rewrite lookup_insert_eq. reflexivity. }
  unfold reloadConfigOption.
  change (String.eqb "frameskip" "volume") with false.
  change (String.eqb "frameskip" "frameskip") with true.
  cbv iota. rewrite Hget. split; [| reflexivity].
  unfold mCoreConfigGetIntValue in *. exact Hget.
Qed.

Lemma setFastForwardMultiplier_frameskip_witness :
  exists r' c',
    setFastForwardMultiplier 1 sampleRunning = Ok r' /\
    core r' = Some c' /\
    mCoreConfigGetIntValue c' "frameskip" = Some 0 /\
    frameskip (opts c') = 0.
Proof.
  apply (setFastForwardMultiplier_frameskip 1 sampleRunning).
  - vm_compute. discriminate.
  - lia.
Defined.

(* ===================================================================== *)
(** ** Time accounting of a tick *)
(* ===================================================================== *)

Lemma trunc_lt_1 (x : Q) : Dbl.trunc x < 1 -> (x < 1)%Q.
Proof.
  intros H. destruct (Qlt_le_dec x 0) as [Hneg | Hpos]; [lra |].
  rewrite (trunc_floor x Hpos) in H.
  pose proof (Qlt_floor x) as Hlt.
  assert (Hle : (inject_Z (Qfloor x + 1) <= inject_Z 1)%Q)
    by (rewrite <- Zle_Qle; lia).
  change (inject_Z 1) with 1%Q in Hle. lra.
Qed.

(** An integer bracket of a non-negative value is its truncation. *)
Lemma trunc_unique (x : Q) (k : Z) :
  0 <= k -> (inject_Z k <= x)%Q -> (x < inject_Z k + 1)%Q -> Dbl.trunc x = k.
Proof.
  intros Hk Hlo Hhi.
  assert (Hx : (0 <= x)%Q).
  { assert (H0 : (inject_Z 0 <= inject_Z k)%Q) by (rewrite <- Zle_Qle; lia).
    change (inject_Z 0) with 0%Q in H0. lra. }
  rewrite (trunc_floor x Hx).
  pose proof (Qfloor_le x) as Hfl. pose proof (Qlt_floor x) as Hfu.
  rewrite inject_Z_plus in Hfu. change (inject_Z 1) with 1%Q in Hfu.
  assert (H1 : (inject_Z (Qfloor x) < inject_Z (k + 1))%Q).
  { rewrite inject_Z_plus. change (inject_Z 1) with 1%Q. lra. }
  assert (H2 : (inject_Z k < inject_Z (Qfloor x + 1))%Q).
  { rewrite inject_Z_plus. change (inject_Z 1) with 1%Q. lra. }
  rewrite <- Zlt_Qlt in H1, H2. lia.
Qed.

(** What one tick of a loaded session does to the accumulator: at most the
    bias is gained over the time that came in, and less than a frame time
    minus the bias is left. *)
Lemma tick_accumulator (events : list SDL_Event) (now : Q)
    (r r' : mEmscriptenRenderer) :
  loaded r ->
  runLoop events now r = Ok r' ->
  (accumulated now r
     <= frameTime r' + inject_Z (Z.max 0 (framesDue now r)) * targetFrameTime)%Q /\
  (frameTime r' + inject_Z (Z.max 0 (framesDue now r)) * targetFrameTime
     <= accumulated now r + bias)%Q /\
  (frameTime r' < targetFrameTime - bias)%Q.
Proof.
  intros Hl Hrun.
  destruct (runLoop_loaded events now r r' Hl Hrun)
    as (r0 & _ & _ & _ & _ & _ & _ & Hnone & Hsome).
  unfold bias.
  destruct (Z.lt_ge_cases (framesDue now r) 1) as [Hlt | Hge].
  - destruct (Hnone Hlt) as (Hft & _ & _). rewrite Hft.
    rewrite Z.max_l by lia. change (inject_Z 0) with 0%Q.
    pose proof (trunc_lt_1 _ Hlt) as Hq.
    pose proof (div_targetFrameTime (accumulated now r + (2 # 10))) as Hd.
    set (q := ((accumulated now r + (2 # 10)) / targetFrameTime)%Q) in *.
    rewrite targetFrameTime_value. repeat split; lra.
  - destruct (Hsome Hge) as (Hft & _ & _). rewrite Hft.
    rewrite Z.max_r by lia.
    destruct (trunc_bounds _ Hge) as [Hlo Hhi].
    fold (framesDue now r) in Hlo, Hhi.
    pose proof (div_targetFrameTime (accumulated now r + (2 # 10))) as Hd.
    set (q := ((accumulated now r + (2 # 10)) / targetFrameTime)%Q) in *.
    unfold normalized.
    destruct (Dbl.ltb (accumulated now r - inject_Z (framesDue now r) * targetFrameTime) 0)
      eqn:Eneg.
    + apply ltb_lt in Eneg. rewrite targetFrameTime_value in *.
      repeat split; lra.
    + apply ltb_ge in Eneg. rewrite targetFrameTime_value in *.
      repeat split; lra.
Qed.

(** X3: a tick of a loaded session never leaves a frame's worth of time
    behind: the accumulator ends below the frame time, whatever came in,
    whether frames were run or not. *)
Theorem tick_leaves_no_backlog (events : list SDL_Event) (now : Q)
    (r r' : mEmscriptenRenderer) :
  loaded r ->
  runLoop events now r = Ok r' ->
  (frameTime r' < targetFrameTime)%Q.
Proof.
  intros Hl Hrun.
  destruct (tick_accumulator events now r r' Hl Hrun) as (_ & _ & Hback).
  unfold bias in Hback. lra.
Qed.

Lemma tick_leaves_no_backlog_witness :
  loaded sampleRunning /\
  runLoop nil 5100 sampleRunning = Ok sampleStalled /\
  (frameTime sampleStalled < targetFrameTime)%Q.
Proof.
  assert (Hl : loaded sampleRunning) by (vm_compute; discriminate).
  assert (Hrun : runLoop nil 5100 sampleRunning = Ok sampleStalled)
    by (vm_compute; reflexivity).
  split; [exact Hl |]. split; [exact Hrun |].
  exact (tick_leaves_no_backlog nil 5100 sampleRunning sampleStalled Hl Hrun).
Defined.

Lemma trunc_below_1 (x : Q) : (x < 1)%Q -> Dbl.trunc x < 1.
Proof.
  intros H. destruct (Qlt_le_dec x 0) as [Hneg | Hpos].
  - pose proof (trunc_nonpos x Hneg). lia.
  - rewrite (trunc_floor x Hpos).
    pose proof (Qfloor_le x) as Hfl.
    assert (Hlt : (inject_Z (Qfloor x) < inject_Z 1)%Q)
      by (change (inject_Z 1) with 1%Q; lra).
    rewrite <- Zlt_Qlt in Hlt. exact Hlt.
Qed.

(** Away from the frame boundaries the count of frames due is plain. *)
Lemma dueClear_framesDue (n : Z) (now : Q) (r : mEmscriptenRenderer) :
  dueClear n now r ->
  (n = 0 -> framesDue now r < 1) /\ (1 <= n -> framesDue now r = n).
Proof.
  intros (Hn & Hlo & Hhi). unfold framesDue.
  pose proof (div_targetFrameTime (accumulated now r + (2 # 10))) as Hd.
  set (q := ((accumulated now r + (2 # 10)) / targetFrameTime)%Q) in *.
  unfold bias, margin in *. rewrite targetFrameTime_value in *.
  split.
  - intros H0. subst n. change (inject_Z 0) with 0%Q in Hhi.
    apply trunc_below_1. lra.
  - intros H1. destruct Hlo as [H0 | Hlo]; [lia |].
    apply trunc_unique; [lia | |]; nra.
Qed.

(** X4: when [n] frames are due at a tick of a loaded session, clear of the
    frame boundaries, the tick takes [n] frame times out of the accumulated
    time and ends with what is left: as it is when no frame is due, and
    otherwise with 0 in place of a negative remainder.  The accumulator
    ends within [margin] of that value. *)
Theorem tick_time_accounting (events : list SDL_Event) (now : Q) (n : Z)
    (r r' : mEmscriptenRenderer) :
  loaded r ->
  dueClear n now r ->
  runLoop events now r = Ok r' ->
  (n = 0 ->
     (accumulated now r - margin <= frameTime r')%Q /\
     (frameTime r' <= accumulated now r + margin)%Q) /\
  (1 <= n ->
     (0 <= accumulated now r - inject_Z n * targetFrameTime)%Q ->
     (accumulated now r - inject_Z n * targetFrameTime - margin <= frameTime r')%Q /\
     (frameTime r' <= accumulated now r - inject_Z n * targetFrameTime + margin)%Q) /\
  (1 <= n ->
     (accumulated now r - inject_Z n * targetFrameTime <= 0)%Q ->
     (0 <= frameTime r')%Q /\ (frameTime r' <= margin)%Q).
Proof.
  intros Hl Hclear Hrun.
  destruct (dueClear_framesDue n now r Hclear) as (Hzero & Hpos).
  destruct (runLoop_loaded events now r r' Hl Hrun)
    as (r0 & _ & _ & _ & _ & _ & _ & Hnone & Hsome).
  unfold margin. split; [| split].
  - intros H0. destruct (Hnone (Hzero H0)) as (Hft & _). rewrite Hft.
    split; lra.
  - intros H1 Hrest. rewrite <- (Hpos H1) in Hrest.
    destruct Hsome as (Hft & _); [rewrite (Hpos H1); exact H1 |].
    rewrite Hft, (Hpos H1) in *. unfold normalized.
    destruct (Dbl.ltb (accumulated now r - inject_Z n * targetFrameTime) 0)
      eqn:Eneg.
    + apply ltb_lt in Eneg. split; lra.
    + split; lra.
  - intros H1 Hrest. rewrite <- (Hpos H1) in Hrest.
    destruct Hsome as (Hft & _); [rewrite (Hpos H1); exact H1 |].
    rewrite Hft, (Hpos H1) in *. unfold normalized.
    destruct (Dbl.ltb (accumulated now r - inject_Z n * targetFrameTime) 0)
      eqn:Eneg.
    + split; lra.
    + apply ltb_ge in Eneg. split; lra.
Qed.

Lemma tick_time_accounting_witness :
  loaded sampleIdle /\
  dueClear 1 125 sampleIdle /\
  runLoop nil 125 sampleIdle = Ok sampleStepped /\
  (accumulated 125 sampleIdle - inject_Z 1 * targetFrameTime == 25 # 3)%Q /\
  ((25 # 3) - margin <= frameTime sampleStepped)%Q /\
  (frameTime sampleStepped <= (25 # 3) + margin)%Q.
Proof.
  assert (Hl : loaded sampleIdle) by (vm_compute; discriminate).
  assert (Hclear : dueClear 1 125 sampleIdle).
  { unfold dueClear. split; [lia |]. split; [right |]; vm_compute; discriminate. }
  assert (Hrun : runLoop nil 125 sampleIdle = Ok sampleStepped)
    by (vm_compute; reflexivity).
  assert (Hrest : (accumulated 125 sampleIdle - inject_Z 1 * targetFrameTime
                   == 25 # 3)%Q) by (vm_compute; reflexivity).
  split; [exact Hl |]. split; [exact Hclear |]. split; [exact Hrun |].
  split; [exact Hrest |].
  destruct (tick_time_accounting nil 125 1 sampleIdle sampleStepped Hl Hclear Hrun)
    as (_ & Hpos & _).
  rewrite <- Hrest. apply Hpos; [lia |].
  rewrite Hrest. vm_compute. discriminate.
Defined.

(* ===================================================================== *)
(** ** Frames per tick *)
(* ===================================================================== *)

Lemma framesToRun_exact (n speed : Z) :
  1 <= n ->
  1 <= speed ->
  n * speed <= Int32.max_signed ->
  framesToRun n speed = Z.min 20 (n * speed).
Proof.
  intros Hn Hs Hprod. unfold framesToRun.
  destruct (speed >? 1) eqn:Es.
  - rewrite wrap32_in_range
      by (unfold Int32.min_signed, Int32.max_signed, Int32.half_modulus in *; nia).
    destruct (n * speed >? 20) eqn:Ec.
    + apply Z.gtb_lt in Ec. lia.
    + rewrite Z.gtb_ltb in Ec. apply Z.ltb_ge in Ec. lia.
  - rewrite Z.gtb_ltb in Es. apply Z.ltb_ge in Es.
    assert (speed = 1) by lia. subst speed. rewrite Z.mul_1_r.
    destruct (n >? 20) eqn:Ec.
    + apply Z.gtb_lt in Ec. lia.
    + rewrite Z.gtb_ltb in Ec. apply Z.ltb_ge in Ec. lia.
Qed.

(** X5: once the first frame has been shown, a tick at which [n] frames
    are due, clear of the frame boundaries, runs [n] times the fast-forward
    speed in force after its key events, capped at 20, as long as that
    product fits [int]. *)
Theorem tick_frame_count (events : list SDL_Event) (now : Q) (n : Z)
    (r r0 r' : mEmscriptenRenderer) :
  loaded r ->
  renderFirstFrame r = false ->
  pollEvents (delivered events) r = Ok r0 ->
  1 <= fastForwardSpeed r0 ->
  dueClear n now r ->
  n * fastForwardSpeed r0 <= Int32.max_signed ->
  runLoop events now r = Ok r' ->
  framesExecuted r r' = Z.to_N (Z.min 20 (n * fastForwardSpeed r0)).
Proof.
  intros Hl Hflag Hpoll Hs Hclear Hprod Hrun.
  destruct (dueClear_framesDue n now r Hclear) as (Hzero & Hpos).
  destruct Hclear as (Hn & _).
  destruct (runLoop_loaded events now r r' Hl Hrun)
    as (r1 & E1 & _ & _ & _ & _ & _ & Hnone & Hsome).
  rewrite Hpoll in E1. inversion E1; subst r1; clear E1.
  unfold framesExecuted.
  destruct (Z.eq_dec n 0) as [H0 | Hne].
  - destruct (Hnone (Hzero H0)) as (_ & _ & Hfr). rewrite Hfr. subst n.
    rewrite Z.mul_0_l. simpl. lia.
  - assert (H1 : 1 <= n) by lia.
    destruct Hsome as (_ & _ & Hfr); [rewrite (Hpos H1); exact H1 |].
    rewrite Hfr, Hflag, (Hpos H1).
    rewrite (framesToRun_exact _ _ H1 Hs Hprod).
    unfold Int32.to_Uint32, Int32.modulus.
    rewrite Z.mod_small by nia. lia.
Qed.

Lemma tick_frame_count_witness :
  dueClear 1 125 sampleIdle /\
  runLoop (ctrlF :: nil) 125 sampleIdle
    = Ok (after (runLoop (ctrlF :: nil) 125 sampleIdle) sampleIdle) /\
  framesExecuted sampleIdle (after (runLoop (ctrlF :: nil) 125 sampleIdle) sampleIdle)
    = 2%N.
Proof.
  assert (Hl : loaded sampleIdle) by (vm_compute; discriminate).
  assert (Hclear : dueClear 1 125 sampleIdle).
  { unfold dueClear. split; [lia |]. split; [right |]; vm_compute; discriminate. }
  assert (Hrun : runLoop (ctrlF :: nil) 125 sampleIdle
                 = Ok (after (runLoop (ctrlF :: nil) 125 sampleIdle) sampleIdle))
    by (vm_compute; reflexivity).
  split; [exact Hclear |]. split; [exact Hrun |].
  rewrite (tick_frame_count (ctrlF :: nil) 125 1 sampleIdle
             (set_fastForwardSpeed 2 sampleIdle) _ Hl eq_refl eq_refl).
  - vm_compute. reflexivity.
  - simpl. lia.
  - exact Hclear.
  - vm_compute. discriminate.
  - exact Hrun.
Defined.

(* ===================================================================== *)
(** ** Sequences of ticks and calls *)
(* ===================================================================== *)

(** One tick at normal speed within [jitter] of its beat, after a tick that
    was within [jitter] of the beat before: it runs one frame, and the
    accumulator stays as close to the deviation from the beat as it was. *)
Lemma beat_tick (events : list SDL_Event) (now beat jitter bound : Q)
    (r : mEmscriptenRenderer) :
  loaded r ->
  renderFirstFrame r = false ->
  fastForwardSpeed r = 1 ->
  (0 <= jitter)%Q -> (jitter <= bound)%Q ->
  (jitter + margin <= bias)%Q ->
  (bound + jitter + bias + margin <= targetFrameTime)%Q ->
  (beat - targetFrameTime - jitter <= lastLoopTime r)%Q ->
  (lastLoopTime r <= beat - targetFrameTime + jitter)%Q ->
  (0 <= frameTime r)%Q ->
  (lastLoopTime r - (beat - targetFrameTime) <= frameTime r)%Q ->
  (frameTime r - (lastLoopTime r - (beat - targetFrameTime)) <= bound)%Q ->
  (beat - jitter <= now)%Q -> (now <= beat + jitter)%Q ->
  Forall (fun e => sym e <> SDLK_f) events ->
  exists r', runLoop events now r = Ok r' /\
    loaded r' /\
    renderFirstFrame r' = false /\
    fastForwardSpeed r' = 1 /\
    lastLoopTime r' = now /\
    (0 <= frameTime r')%Q /\
    (now - beat <= frameTime r')%Q /\
    (frameTime r' - (now - beat) <= bound)%Q /\
    framesOf r' = (framesOf r + 1)%N.
Proof.
  intros Hl Hflag Hspeed Hj HjB Hjb HB Hd1 Hd2 Hft Hg1 Hg2 Hn1 Hn2 Hnof.
  unfold bias, margin in *.
  assert (Hdue : framesDue now r = 1).
  { unfold framesDue. unfold accumulated.
    pose proof (div_targetFrameTime
                  (frameTime r + (now - lastLoopTime r) + (2 # 10))) as Hd.
    set (q := ((frameTime r + (now - lastLoopTime r) + (2 # 10))
               / targetFrameTime)%Q) in *.
    rewrite targetFrameTime_value in *.
    apply trunc_unique; [lia | |]; change (inject_Z 1) with 1%Q; lra. }
  destruct (runLoop_total events now r Hl) as [r' Hrun].
  { rewrite Hdue. reflexivity. }
  exists r'. split; [exact Hrun |].
  pose proof (runLoop_keeps_speed events now r r' Hl Hnof Hrun) as Hkeep.
  unfold getFastForwardMultiplier in Hkeep.
  destruct (runLoop_loaded events now r r' Hl Hrun)
    as (r0 & _ & _ & _ & Hl' & Hlast & Hsp & _ & Hsome).
  destruct Hsome as (Hft' & Hrf & Hfr); [lia |].
  assert (Hs0 : fastForwardSpeed r0 = 1) by congruence.
  split; [exact Hl' |]. split; [exact Hrf |]. split; [congruence |].
  split; [exact Hlast |].
  assert (Hval : (0 <= frameTime r')%Q /\ (now - beat <= frameTime r')%Q /\
                 (frameTime r' - (now - beat) <= bound)%Q).
  { rewrite Hft', Hdue. unfold normalized, accumulated.
    change (inject_Z 1) with 1%Q.
    destruct (Dbl.ltb (frameTime r + (now - lastLoopTime r) - 1 * targetFrameTime) 0)
      eqn:Eneg.
    - apply ltb_lt in Eneg. repeat split; lra.
    - apply ltb_ge in Eneg. repeat split; lra. }
  destruct Hval as (H1 & H2 & H3).
  split; [exact H1 |]. split; [exact H2 |]. split; [exact H3 |].
  rewrite Hfr, Hflag, Hdue, Hs0. reflexivity.
Qed.

Lemma onBeat_frames (t0 jitter bound : Q) (ticks : list (list SDL_Event * Q)) :
  (0 <= jitter)%Q -> (jitter <= bound)%Q ->
  (jitter + margin <= bias)%Q ->
  (bound + jitter + bias + margin <= targetFrameTime)%Q ->
  forall (k : Z) (r : mEmscriptenRenderer),
  loaded r ->
  renderFirstFrame r = false ->
  fastForwardSpeed r = 1 ->
  (t0 + inject_Z k * targetFrameTime - targetFrameTime - jitter <= lastLoopTime r)%Q ->
  (lastLoopTime r <= t0 + inject_Z k * targetFrameTime - targetFrameTime + jitter)%Q ->
  (0 <= frameTime r)%Q ->
  (lastLoopTime r - (t0 + inject_Z k * targetFrameTime - targetFrameTime)
     <= frameTime r)%Q ->
  (frameTime r - (lastLoopTime r - (t0 + inject_Z k * targetFrameTime - targetFrameTime))
     <= bound)%Q ->
  onBeat t0 jitter k ticks ->
  exists r', session (ticking ticks) r = Ok r' /\
    framesOf r' = (framesOf r + N.of_nat (length ticks))%N.
Proof.
  intros Hj HjB Hjb HB.
  induction ticks as [| [events now] rest IH];
    intros k r Hl Hflag Hspeed Hd1 Hd2 Hft Hg1 Hg2 Hbeat.
  - exists r. split; [reflexivity | simpl; lia].
  - destruct Hbeat as (Hn1 & Hn2 & Hnof & Hrest).
    destruct (beat_tick events now (t0 + inject_Z k * targetFrameTime) jitter bound r
                Hl Hflag Hspeed Hj HjB Hjb HB Hd1 Hd2 Hft Hg1 Hg2 Hn1 Hn2 Hnof)
      as (r1 & Hrun & Hl1 & Hflag1 & Hspeed1 & Hlast1 & Hft1 & Hg1' & Hg2' & Hfr1).
    destruct (IH (k + 1) r1 Hl1 Hflag1 Hspeed1) as (r' & Hses & Hfr);
      try (rewrite Hlast1, inject_Z_plus; change (inject_Z 1) with 1%Q; lra);
      [exact Hft1 | exact Hrest |].
    exists r'. split.
    + simpl. rewrite Hrun. simpl. exact Hses.
    + rewrite Hfr, Hfr1. simpl length. lia.
Qed.

(** X6: at normal speed, ticks that stay within a jitter of the beats of a
    60 Hz clock and carry no [f] key run exactly one frame each, for as
    long as they keep coming, provided the jitter stays below the bias and
    the accumulator starts low enough; the bias is what absorbs the
    jitter. *)
Theorem steady_cadence (jitter : Q) (ticks : list (list SDL_Event * Q))
    (r : mEmscriptenRenderer) :
  loaded r ->
  renderFirstFrame r = false ->
  fastForwardSpeed r = 1 ->
  (0 <= frameTime r)%Q ->
  (0 <= jitter)%Q ->
  (jitter + margin <= bias)%Q ->
  (frameTime r + 2 * jitter + bias + margin <= targetFrameTime)%Q ->
  onBeat (lastLoopTime r) jitter 1 ticks ->
  exists r', session (ticking ticks) r = Ok r' /\
    framesOf r' = (framesOf r + N.of_nat (length ticks))%N.
Proof.
  intros Hl Hflag Hspeed Hft Hj Hjb Hroom Hbeat.
  apply (onBeat_frames (lastLoopTime r) jitter (frameTime r + jitter) ticks)
    with (k := 1); try assumption;
    change (inject_Z 1) with 1%Q; lra.
Qed.

Lemma steady_cadence_witness :
  onBeat (lastLoopTime sampleRunning) (1 # 10) 1
    ((nil, 1167 # 10) :: (nil, 1333 # 10) :: (nil, 150 # 1) :: nil) /\
  exists r', session (ticking ((nil, 1167 # 10) :: (nil, 1333 # 10) :: (nil, 150 # 1) :: nil))
               sampleRunning = Ok r' /\
    framesOf r' = (framesOf sampleRunning + 3)%N.
Proof.
  assert (Hbeat : onBeat (lastLoopTime sampleRunning) (1 # 10) 1
            ((nil, 1167 # 10) :: (nil, 1333 # 10) :: (nil, 150 # 1) :: nil)).
  { simpl. repeat split; try (vm_compute; discriminate); constructor. }
  split; [exact Hbeat |].
  apply (steady_cadence (1 # 10)
           ((nil, 1167 # 10) :: (nil, 1333 # 10) :: (nil, 150 # 1) :: nil)
           sampleRunning).
  - vm_compute. discriminate.
  - reflexivity.
  - reflexivity.
  - vm_compute. discriminate.
  - vm_compute. discriminate.
  - vm_compute. discriminate.
  - vm_compute. discriminate.
  - exact Hbeat.
Defined.

Lemma pollEvents_unloaded (events : list SDL_Event) (r : mEmscriptenRenderer) :
  core r = None -> pollEvents events r = Ok r.
Proof.
  intros Hc. induction events as [| event rest IH]; [reflexivity |].
  simpl. rewrite Hc.
  destruct ((type event =? SDL_KEYDOWN) || (type event =? SDL_KEYUP));
    simpl; exact IH.
Qed.

Lemma pollEvents_app (pre post : list SDL_Event) (r : mEmscriptenRenderer) :
  pollEvents (pre ++ post) r = (r1 <-- pollEvents pre r ;; pollEvents post r1).
Proof.
  revert r. induction pre as [| event rest IH]; intros r; [reflexivity |].
  simpl.
  destruct (if (type event =? SDL_KEYDOWN) || (type event =? SDL_KEYUP)
            then match core r with
                 | Some _ => handleKeypressCore event r
                 | None => Ok r
                 end
            else Ok r) as [r1 | f]; simpl; [apply IH | reflexivity].
Qed.

Lemma handleKeypressCore_speed (event : SDL_Event) (r r' : mEmscriptenRenderer) :
  handleKeypressCore event r = Ok r' ->
  1 <= fastForwardSpeed r ->
  1 <= fastForwardSpeed r'.
Proof.
  unfold handleKeypressCore, deref. intros H Hs.
  destruct (sym event =? SDLK_f).
  - inversion H; subst r'. simpl. destruct (type event =? SDL_KEYDOWN); lia.
  - destruct (Z.land (kmod event) (Z.lnot (Z.lor KMOD_NUM KMOD_CAPS)) =? 0);
      destruct (core r) as [c |]; simpl in H; try discriminate;
      try (inversion H; subst r'; exact Hs);
      destruct (negb (mInputMapKey c (sym event) =? -1)); simpl in H;
      try (inversion H; subst r'; exact Hs);
      destruct (type event =? SDL_KEYDOWN);
      inversion H; subst r'; exact Hs.
Qed.

Lemma pollEvents_speed (events : list SDL_Event) (r r' : mEmscriptenRenderer) :
  pollEvents events r = Ok r' ->
  1 <= fastForwardSpeed r ->
  1 <= fastForwardSpeed r'.
Proof.
  revert r. induction events as [| event rest IH]; intros r H Hs.
  - inversion H; subst r'. exact Hs.
  - simpl in H.
    destruct (if (type event =? SDL_KEYDOWN) || (type event =? SDL_KEYUP)
              then match core r with
                   | Some _ => handleKeypressCore event r
                   | None => Ok r
                   end
              else Ok r) as [r1 | f] eqn:E1; simpl in H; [| discriminate].
    apply (IH r1 H).
    destruct ((type event =? SDL_KEYDOWN) || (type event =? SDL_KEYUP)).
    + destruct (core r).
      * exact (handleKeypressCore_speed event r r1 E1 Hs).
      * inversion E1; subst r1. exact Hs.
    + inversion E1; subst r1. exact Hs.
Qed.

(** A tick without a session handles no event and leaves the clock alone. *)
Lemma runLoop_no_session (events : list SDL_Event) (now : Q) (r : mEmscriptenRenderer) :
  core r = None ->
  runLoop events now r = Ok (set_mainLoopPaused true (set_renderFirstFrame true r)).
Proof.
  intros Hc. unfold runLoop.
  rewrite (pollEvents_unloaded (delivered events) r Hc). simpl.
  rewrite Hc. reflexivity.
Qed.

Lemma same_clock_paced (t : Q) (r r' : mEmscriptenRenderer) :
  same_clock r r' -> paced t r -> paced t r'.
Proof.
  unfold same_clock, paced. intros (Hft & Hlast & Hs) H.
  rewrite Hft, Hlast, Hs. exact H.
Qed.

Lemma runLoop_paced (events : list SDL_Event) (now t : Q)
    (r r' : mEmscriptenRenderer) :
  paced t r ->
  (t <= now)%Q ->
  runLoop events now r = Ok r' ->
  paced now r'.
Proof.
  intros (Hs & Hlo & Hhi & Hlast) Hnow Hrun.
  destruct (core r) as [c |] eqn:Ec.
  - assert (Hl : loaded r) by (unfold loaded; congruence).
    destruct (tick_accumulator events now r r' Hl Hrun) as (_ & _ & Hback).
    destruct (runLoop_loaded events now r r' Hl Hrun)
      as (r0 & E0 & _ & _ & _ & Hlast' & Hsp & Hnone & Hsome).
    unfold paced. rewrite Hlast', Hsp.
    split; [exact (pollEvents_speed _ _ _ E0 Hs) |].
    split; [| split; [exact Hback | lra]].
    destruct (Z.lt_ge_cases (framesDue now r) 1) as [Hlt | Hge].
    + destruct (Hnone Hlt) as (Hft & _). rewrite Hft. unfold accumulated. lra.
    + destruct (Hsome Hge) as (Hft & _). rewrite Hft.
      apply (normalized_bounds now r Hge).
  - rewrite (runLoop_no_session events now r Ec) in Hrun.
    inversion Hrun; subst r'. unfold paced. simpl.
    repeat split; try assumption. lra.
Qed.

Lemma call_same_clock (c : Call) (r r' : mEmscriptenRenderer) :
  call c r = Ok r' ->
  match c with
  | CallRunLoop _ _ => True
  | CallSetFastForwardMultiplier m =>
      frameTime r' = frameTime r /\ lastLoopTime r' = lastLoopTime r /\
      (fastForwardSpeed r' = fastForwardSpeed r \/
       (0 < m /\ fastForwardSpeed r' = m))
  | _ => same_clock r r'
  end.
Proof.
  destruct c; simpl; intros H; try exact I; unfold same_clock.
  - destruct (loadGame_cases env name r) as (r1 & b & E & Hft & Hlast & _ & Hs & _).
    rewrite E in H. simpl in H. inversion H; subst r'. auto.
  - destruct (quitGame_cases r) as (r1 & E & _ & Hft & Hlast & Hs & _).
    rewrite E in H. inversion H; subst r'. auto.
  - destruct (quickReload_cases r r' H) as (_ & _ & Hft & Hlast & _ & Hs). auto.
  - destruct (pauseGame_cases r) as (r1 & E & _ & Hft & Hlast & _ & Hs & _).
    rewrite E in H. inversion H; subst r'. auto.
  - destruct (resumeGame_cases r r' H) as (_ & _ & Hft & Hlast & _ & Hs & _). auto.
  - unfold buttonPress in H. destruct (core r); inversion H; subst r'; auto.
  - unfold buttonUnpress in H. destruct (core r); inversion H; subst r'; auto.
  - unfold setVolume in H.
    destruct (Flt.ltb (Finite 2) vol || Flt.ltb vol (Finite 0));
      [inversion H; subst r'; auto |].
    destruct (core r); [| inversion H; subst r'; auto].
    destruct (Flt.to_int (Flt.mul vol (Finite 256)) =? 0);
      inversion H; subst r'; auto.
  - unfold setFastForwardMultiplier, deref in H.
    destruct (multiplier >? 0) eqn:Em; [| inversion H; subst r'; auto].
    apply Z.gtb_lt in Em. simpl in H.
    destruct (core r); simpl in H; [| discriminate].
    inversion H; subst r'. simpl. auto.
  - unfold bindKey, deref in H. destruct (core r); simpl in H; [| discriminate].
    inversion H; subst r'. auto.
  - unfold saveState in H. destruct (core r); simpl in H; inversion H; subst r'; auto.
  - unfold loadState in H. destruct (core r); simpl in H; inversion H; subst r'; auto.
Qed.

Lemma session_paced (calls : list Call) (t : Q) (r r' : mEmscriptenRenderer) :
  monotone t calls ->
  paced t r ->
  session calls r = Ok r' ->
  exists t', paced t' r'.
Proof.
  revert t r. induction calls as [| c rest IH]; intros t r Hmono Hp Hses.
  - inversion Hses; subst r'. exists t. exact Hp.
  - simpl in Hses. destruct (call c r) as [r1 | f] eqn:Ecall; [| discriminate].
    simpl in Hses.
    pose proof (call_same_clock c r r1 Ecall) as Hclock.
    destruct c;
      try (apply (IH t r1 Hmono); [exact (same_clock_paced t r r1 Hclock Hp) | exact Hses]).
    + destruct Hmono as [Hnow Hrest].
      apply (IH now r1 Hrest); [| exact Hses].
      exact (runLoop_paced events now t r r1 Hp Hnow Ecall).
    + apply (IH t r1 Hmono); [| exact Hses].
      destruct Hclock as (Hft & Hlast & Hs).
      destruct Hp as (Hs0 & Hlo & Hhi & Hl0).
      unfold paced. rewrite Hft, Hlast.
      repeat split; try assumption.
      destruct Hs as [Hs | [Hm Hs]]; rewrite Hs; lia.
Qed.

(** X7: in every state that a session of calls reaches from startup without
    a fault, with a clock that never goes back, the fast-forward speed is
    at least 1 and the accumulator is non-negative and below the frame
    time. *)
Theorem session_pacing_invariant (calls : list Call) (r' : mEmscriptenRenderer) :
  monotone 0 calls ->
  session calls main = Ok r' ->
  1 <= getFastForwardMultiplier r' /\
  (0 <= frameTime r')%Q /\
  (frameTime r' < targetFrameTime)%Q.
Proof.
  intros Hmono Hses.
  assert (Hmain : paced 0 main).
  { unfold paced. simpl. repeat split; try lia; try (vm_compute; discriminate);
      vm_compute; reflexivity. }
  destruct (session_paced calls 0 main r' Hmono Hmain Hses) as (t' & Hp).
  destruct Hp as (Hs & Hlo & Hhi & _). unfold bias in Hhi.
  split; [exact Hs |]. split; [exact Hlo | lra].
Qed.

Lemma session_pacing_invariant_witness :
  monotone 0 sampleCalls /\
  session sampleCalls main = Ok (after (session sampleCalls main) main) /\
  1 <= getFastForwardMultiplier (after (session sampleCalls main) main) /\
  (0 <= frameTime (after (session sampleCalls main) main))%Q /\
  (frameTime (after (session sampleCalls main) main) < targetFrameTime)%Q.
Proof.
  assert (Hmono : monotone 0 sampleCalls).
  { simpl. repeat split; vm_compute; discriminate. }
  assert (Hses : session sampleCalls main = Ok (after (session sampleCalls main) main))
    by (vm_compute; reflexivity).
  split; [exact Hmono |]. split; [exact Hses |].
  exact (session_pacing_invariant sampleCalls _ Hmono Hses).
Defined.

(* ===================================================================== *)
(** ** Key events in a tick *)
(* ===================================================================== *)

Lemma delivered_app (pre post : list SDL_Event) :
  delivered (pre ++ post) = delivered pre ++ delivered post.
Proof. unfold delivered. apply List.filter_app. Qed.

Lemma delivered_keeps_no_f (events : list SDL_Event) :
  Forall (fun e => sym e <> SDLK_f) events ->
  Forall (fun e => sym e <> SDLK_f) (delivered events).
Proof.
  unfold delivered. rewrite !List.Forall_forall. intros H e He.
  apply H. apply List.filter_In in He. tauto.
Qed.

(** X8: when a tick of a loaded session carries [f] key events, the last
    of them decides the speed the tick ends with: 2 for a key-down, 1 for a
    key-up, whatever the speed was and whatever [setFastForwardMultiplier]
    had set. *)
Theorem last_f_key_decides_speed (pre post : list SDL_Event) (event : SDL_Event)
    (now : Q) (r r' : mEmscriptenRenderer) :
  loaded r ->
  sym event = SDLK_f ->
  is_key_event event = true ->
  Forall (fun e => sym e <> SDLK_f) post ->
  runLoop (pre ++ event :: post) now r = Ok r' ->
  getFastForwardMultiplier r' = (if type event =? SDL_KEYDOWN then 2 else 1).
Proof.
  intros Hl Hsym Hkey Hpost Hrun.
  destruct (runLoop_loaded _ now r r' Hl Hrun)
    as (r0 & E0 & _ & _ & _ & _ & Hsp & _).
  unfold getFastForwardMultiplier. rewrite Hsp. clear Hrun Hsp.
  rewrite delivered_app in E0.
  assert (Hdel : delivered (event :: post) = event :: delivered post).
  { unfold delivered. simpl. unfold excludeKeys. rewrite Hsym. reflexivity. }
  rewrite Hdel, pollEvents_app in E0.
  destruct (pollEvents_ok (delivered pre) r) as (r1 & E1 & K1).
  rewrite E1 in E0. simpl in E0.
  unfold is_key_event in Hkey. rewrite Hkey in E0.
  assert (Hl1 : loaded r1) by (apply K1; exact Hl).
  unfold loaded in Hl1. destruct (core r1) as [c1 |] eqn:Ec1; [| congruence].
  unfold handleKeypressCore in E0. rewrite Hsym, Z.eqb_refl in E0. simpl in E0.
  rewrite (pollEvents_keeps_speed (delivered post) _ r0
             (delivered_keeps_no_f post Hpost) E0).
  reflexivity.
Qed.

Lemma last_f_key_decides_speed_witness :
  runLoop (ctrlF :: nil) 125 sampleIdle
    = Ok (after (runLoop (ctrlF :: nil) 125 sampleIdle) sampleIdle) /\
  getFastForwardMultiplier sampleIdle = 1 /\
  getFastForwardMultiplier (after (runLoop (ctrlF :: nil) 125 sampleIdle) sampleIdle) = 2.
Proof.
  assert (Hrun : runLoop (ctrlF :: nil) 125 sampleIdle
                 = Ok (after (runLoop (ctrlF :: nil) 125 sampleIdle) sampleIdle))
    by (vm_compute; reflexivity).
  split; [exact Hrun |]. split; [reflexivity |].
  apply (last_f_key_decides_speed nil nil ctrlF 125 sampleIdle).
  - vm_compute. discriminate.
  - reflexivity.
  - reflexivity.
  - constructor.
  - exact Hrun.
Defined.

(** X9: the [f] key writes the speed and nothing else.  After
    [setFastForwardMultiplier(m)] a release of [f] brings the speed back
    to 1, while the audio frame-rate target stays at 60 m and the machine's
    frameskip at m - 1. *)
Theorem f_release_after_multiplier (m modifiers : Z) (r : mEmscriptenRenderer) :
  loaded r ->
  0 < m ->
  exists r1 r2 c2,
    setFastForwardMultiplier m r = Ok r1 /\
    handleKeypressCore {| type := SDL_KEYUP; sym := SDLK_f; kmod := modifiers |} r1
      = Ok r2 /\
    getFastForwardMultiplier r2 = 1 /\
    fpsTarget (audio r2) = (60 * inject_Z m)%Q /\
    core r2 = Some c2 /\
    frameskip (opts c2) = m - 1.
Proof.
  unfold loaded. intros Hl Hm.
  destruct (core r) as [c |] eqn:Ec; [| congruence].
  rewrite (setFastForwardMultiplier_loaded m r c Ec Hm).
  eexists _, _, _. split; [reflexivity |].
  split; [reflexivity |]. simpl.
  split; [reflexivity |]. split; [reflexivity |]. split; [reflexivity |].
  unfold reloadConfigOption.
  change (String.eqb "frameskip" "volume") with false.
  change (String.eqb "frameskip" "frameskip") with true. cbv iota.
  unfold mCoreConfigGetIntValue, mCoreConfigSetDefaultIntValue. simpl.
  rewrite lookup_insert_eq. reflexivity.
Qed.

Lemma f_release_after_multiplier_witness :
  exists r1 r2 c2,
    setFastForwardMultiplier 3 sampleRunning = Ok r1 /\
    handleKeypressCore {| type := SDL_KEYUP; sym := SDLK_f; kmod := 0 |} r1
      = Ok r2 /\
    getFastForwardMultiplier r2 = 1 /\
    fpsTarget (audio r2) = (60 * inject_Z 3)%Q /\
    core r2 = Some c2 /\
    frameskip (opts c2) = 3 - 1.
Proof.
  apply (f_release_after_multiplier 3 0 sampleRunning).
  - vm_compute. discriminate.
  - lia.
Defined.

Lemma land_lor_locks (k l : Z) :
  Z.land l (Z.lnot (Z.lor KMOD_NUM KMOD_CAPS)) = 0 ->
  Z.land (Z.lor k l) (Z.lnot (Z.lor KMOD_NUM KMOD_CAPS))
  = Z.land k (Z.lnot (Z.lor KMOD_NUM KMOD_CAPS)).
Proof.
  intros H. rewrite Z.land_lor_distr_l, H. apply Z.lor_0_r.
Qed.

(** X10: NumLock and CapsLock do not matter to key handling: an event is
    handled the same with those two modifier bits added. *)
Theorem lock_modifiers_ignored (locks : Z) (event : SDL_Event)
    (r : mEmscriptenRenderer) :
  Z.land locks (Z.lnot (Z.lor KMOD_NUM KMOD_CAPS)) = 0 ->
  handleKeypressCore (with_kmod (Z.lor (kmod event) locks) event) r
  = handleKeypressCore event r.
Proof.
  intros Hlocks. unfold handleKeypressCore, with_kmod. simpl.
  rewrite (land_lor_locks (kmod event) locks Hlocks). reflexivity.
Qed.

Lemma lock_modifiers_ignored_witness :
  handleKeypressCore
    (with_kmod (Z.lor 0 (Z.lor KMOD_NUM KMOD_CAPS))
       {| type := SDL_KEYDOWN; sym := 120; kmod := 0 |}) sampleRunning
  = handleKeypressCore {| type := SDL_KEYDOWN; sym := 120; kmod := 0 |} sampleRunning.
Proof.
  apply (lock_modifiers_ignored (Z.lor KMOD_NUM KMOD_CAPS)
           {| type := SDL_KEYDOWN; sym := 120; kmod := 0 |} sampleRunning).
  reflexivity.
Defined.

(** X11: an event that is neither a key-down nor a key-up, or whose keysym
    is Tab or Space, has no effect on a tick, wherever it sits among the
    pending events. *)
Theorem ignored_event (pre post : list SDL_Event) (event : SDL_Event)
    (now : Q) (r : mEmscriptenRenderer) :
  is_key_event event = false \/ sym event = SDLK_TAB \/ sym event = SDLK_SPACE ->
  runLoop (pre ++ event :: post) now r = runLoop (pre ++ post) now r.
Proof.
  intros Hig. unfold runLoop.
  assert (Hpoll : pollEvents (delivered (pre ++ event :: post)) r
                  = pollEvents (delivered (pre ++ post)) r).
  { rewrite !delivered_app, !pollEvents_app.
    destruct (pollEvents (delivered pre) r) as [r1 | f]; simpl; [| reflexivity].
    unfold delivered at 1. simpl. fold (delivered post).
    destruct (negb (excludeKeys event =? 0)) eqn:Ex; [| reflexivity].
    destruct Hig as [Hkey | Hsym].
    - simpl. unfold is_key_event in Hkey. rewrite Hkey. reflexivity.
    - unfold excludeKeys in Ex.
      destruct Hsym as [Hs | Hs]; rewrite Hs in Ex; discriminate. }
  rewrite Hpoll. reflexivity.
Qed.

Lemma ignored_event_witness :
  runLoop ({| type := SDL_KEYDOWN; sym := SDLK_SPACE; kmod := 0 |} :: nil) 125 sampleIdle
  = runLoop nil 125 sampleIdle.
Proof.
  apply (ignored_event nil nil
           {| type := SDL_KEYDOWN; sym := SDLK_SPACE; kmod := 0 |} 125 sampleIdle).
  right. right. reflexivity.
Defined.

(** X12: a tick without a session handles none of the pending events, not
    even the [f] key, and leaves the clock and the accumulator alone: it
    sets the first-frame flag and suspends the main loop, nothing else. *)
Theorem tick_without_session (events : list SDL_Event) (now : Q)
    (r : mEmscriptenRenderer) :
  core r = None ->
  exists r', runLoop events now r = Ok r' /\
    core r' = None /\
    renderFirstFrame r' = true /\
    mainLoopPaused r' = true /\
    getFastForwardMultiplier r' = getFastForwardMultiplier r /\
    lastLoopTime r' = lastLoopTime r /\
    frameTime r' = frameTime r /\
    audio r' = audio r.
Proof.
  intros Hc. rewrite (runLoop_no_session events now r Hc).
  eexists. split; [reflexivity |]. simpl. repeat split. exact Hc.
Qed.

Lemma tick_without_session_witness :
  exists r', runLoop (ctrlF :: nil) 50 main = Ok r' /\
    core r' = None /\
    renderFirstFrame r' = true /\
    mainLoopPaused r' = true /\
    getFastForwardMultiplier r' = getFastForwardMultiplier main /\
    lastLoopTime r' = lastLoopTime main /\
    frameTime r' = frameTime main /\
    audio r' = audio main.
Proof.
  apply (tick_without_session (ctrlF :: nil) 50 main). reflexivity.
Defined.

(* ===================================================================== *)
(** ** Buttons *)
(* ===================================================================== *)

Lemma bit_pow2 (id : Z) : 0 <= id < 32 -> Int32.bit id = 2 ^ id.
Proof.
  intros H. unfold Int32.bit, Int32.to_Uint32, Int32.modulus.
  rewrite (Z.mod_small id 32) by lia.
  rewrite Z.shiftl_1_l. apply Z.mod_small.
  split; [apply Z.pow_nonneg; lia | apply Z.pow_lt_mono_r; lia].
Qed.

(** X13: on a loaded session [buttonPress(id)] holds button [id] down and
    [buttonUnpress(id)] lets it go, for ids 0 to 31, and neither touches
    any other button. *)
Theorem button_press_release (id : Z) (r : mEmscriptenRenderer) (c : mCore) :
  core r = Some c ->
  0 <= id < 32 ->
  exists r1 c1 r2 c2,
    buttonPress id r = Ok r1 /\ core r1 = Some c1 /\
    buttonUnpress id r1 = Ok r2 /\ core r2 = Some c2 /\
    Z.testbit (keys c1) id = true /\
    Z.testbit (keys c2) id = false /\
    (forall j, j <> id ->
       Z.testbit (keys c1) j = Z.testbit (keys c) j /\
       Z.testbit (keys c2) j = Z.testbit (keys c) j).
Proof.
  intros Hc Hid. unfold buttonPress, buttonUnpress. rewrite Hc. simpl.
  eexists _, _, _, _. split; [reflexivity |]. split; [reflexivity |].
  split; [reflexivity |]. split; [reflexivity |]. simpl.
  rewrite (bit_pow2 id Hid).
  split; [| split].
  - rewrite Z.lor_spec, Z.pow2_bits_true by lia. apply orb_true_r.
  - rewrite Z.ldiff_spec, Z.pow2_bits_true by lia. apply andb_false_r.
  - intros j Hj.
    rewrite Z.ldiff_spec, !Z.lor_spec, Z.pow2_bits_false by lia.
    rewrite orb_false_r, andb_true_r. split; reflexivity.
Qed.

Lemma button_press_release_witness :
  exists r1 c1 r2 c2,
    buttonPress 3 sampleRunning = Ok r1 /\ core r1 = Some c1 /\
    buttonUnpress 3 r1 = Ok r2 /\ core r2 = Some c2 /\
    Z.testbit (keys c1) 3 = true /\
    Z.testbit (keys c2) 3 = false /\
    (forall j, j <> 3 ->
       Z.testbit (keys c1) j = Z.testbit (keys freshCore) j /\
       Z.testbit (keys c2) j = Z.testbit (keys freshCore) j).
Proof.
  assert (Hc : exists c, core sampleRunning = Some c /\ keys c = keys freshCore).
  { eexists. split; [vm_compute; reflexivity | reflexivity]. }
  destruct Hc as (c & Hc & Hk). rewrite <- Hk.
  apply (button_press_release 3 sampleRunning c Hc). lia.
Defined.

(* ===================================================================== *)
(** ** Volume and the audio device *)
(* ===================================================================== *)

(** A volume between 0 and 2.0 converts to its number of steps of 1/256. *)
Lemma to_int_steps (vol : Q) :
  (0 <= vol)%Q -> (vol <= 2)%Q ->
  Flt.to_int (Flt.mul (Finite vol) (Finite 0x100)) = Dbl.trunc (vol * 0x100).
Proof.
  intros Hlo Hhi. simpl.
  assert (Hx : (0 <= vol * 256)%Q) by lra.
  pose proof (Qfloor_le (vol * 256)) as Hfl.
  pose proof (Qlt_floor (vol * 256)) as Hfu.
  rewrite <- (trunc_floor _ Hx) in Hfl, Hfu.
  set (n := Dbl.trunc (vol * 256)) in *.
  assert (H1 : (inject_Z n <= inject_Z 512)%Q)
    by (change (inject_Z 512) with 512%Q; lra).
  assert (H2 : (inject_Z 0 < inject_Z (n + 1))%Q)
    by (change (inject_Z 0) with 0%Q; lra).
  rewrite <- Zle_Qle in H1. rewrite <- Zlt_Qlt in H2.
  assert (Hr : Int32.in_range n = true).
  { unfold Int32.in_range, Int32.min_signed, Int32.max_signed, Int32.half_modulus.
    apply andb_true_intro. split; apply Z.leb_le; lia. }
  rewrite Hr. reflexivity.
Qed.

(** X14: on a loaded session a volume between 0 and 2.0 is stored in steps
    of 1/256, rounded down: [getVolume] then returns the stored step, which
    is at most the volume given and less than one step below it; and the
    audio device is paused exactly when the stored step is 0, whether or
    not the main loop runs. *)
Theorem setVolume_in_range (vol : Q) (r : mEmscriptenRenderer) :
  loaded r ->
  (0 <= vol)%Q ->
  (vol <= 2)%Q ->
  exists r' v,
    setVolume (Finite vol) r = Ok r' /\
    getVolume r' = Ok v /\
    (v <= vol)%Q /\ (vol < v + (1 # 256))%Q /\
    audioPaused (audio r') = (Dbl.trunc (vol * 0x100) =? 0) /\
    mainLoopPaused r' = mainLoopPaused r.
Proof.
  unfold loaded. intros Hl Hlo Hhi.
  destruct (core r) as [c |] eqn:Ec; [| congruence].
  unfold setVolume. rewrite (to_int_steps vol Hlo Hhi).
  assert (H1 : Flt.ltb (Finite 2) (Finite vol) = false)
    by (apply ltb_ge; exact Hhi).
  assert (H2 : Flt.ltb (Finite vol) (Finite 0) = false)
    by (apply ltb_ge; exact Hlo).
  rewrite H1, H2, Ec. simpl.
  assert (Hget : forall r1 : mEmscriptenRenderer,
    getVolume (set_core (Some (reloadConfigOption "volume"
                 (mCoreConfigSetDefaultIntValue "volume" (Dbl.trunc (vol * 256)) c))) r1)
    = Ok (inject_Z (Dbl.trunc (vol * 256)) / 256)%Q).
  { intros r1. unfold getVolume, deref. simpl.
    unfold reloadConfigOption.
    change (String.eqb "volume" "volume") with true. cbv iota.
    unfold mCoreConfigGetIntValue, mCoreConfigSetDefaultIntValue. simpl.
    rewrite lookup_insert_eq. reflexivity. }
  assert (Hx : (0 <= vol * 256)%Q) by lra.
  pose proof (Qfloor_le (vol * 256)) as Hfl.
  pose proof (Qlt_floor (vol * 256)) as Hfu.
  rewrite inject_Z_plus in Hfu. change (inject_Z 1) with 1%Q in Hfu.
  rewrite <- (trunc_floor _ Hx) in Hfl, Hfu.
  assert (Hq : (inject_Z (Dbl.trunc (vol * 256)) / 256 * 256
                == inject_Z (Dbl.trunc (vol * 256)))%Q) by field.
  destruct (Dbl.trunc (vol * 256) =? 0) eqn:Ez;
    eexists _, _; (split; [reflexivity |]); (split; [apply Hget |]);
    simpl; repeat split; lra.
Qed.

Lemma setVolume_in_range_witness :
  exists r' v,
    setVolume (Finite (1 # 3)) samplePaused = Ok r' /\
    getVolume r' = Ok v /\
    (v <= 1 # 3)%Q /\ (1 # 3 < v + (1 # 256))%Q /\
    audioPaused (audio r') = (Dbl.trunc ((1 # 3) * 0x100) =? 0) /\
    mainLoopPaused r' = mainLoopPaused samplePaused.
Proof.
  apply (setVolume_in_range (1 # 3) samplePaused).
  - vm_compute. discriminate.
  - vm_compute. discriminate.
  - vm_compute. discriminate.
Defined.

(** X15: [resumeGame] after [pauseGame] restarts the main loop, and
    restarts the audio device only if the configured volume is above 0:
    with a volume of 0, or none configured, the device stays paused. *)
Theorem pause_resume_audio (r r1 r2 : mEmscriptenRenderer) (c : mCore) :
  core r = Some c ->
  pauseGame r = Ok r1 ->
  resumeGame r1 = Ok r2 ->
  mainLoopPaused r1 = true /\ audioPaused (audio r1) = true /\
  mainLoopPaused r2 = false /\
  audioPaused (audio r2)
    = negb (default (-1) (mCoreConfigGetIntValue c "volume") >? 0) /\
  core r2 = core r.
Proof.
  intros Hc Hpause Hresume.
  unfold pauseGame in Hpause. inversion Hpause; subst r1; clear Hpause.
  unfold resumeGame, deref in Hresume. simpl in Hresume.
  rewrite Hc in Hresume. simpl in Hresume.
  destruct (default (-1) (mCoreConfigGetIntValue c "volume") >? 0);
    inversion Hresume; subst r2; simpl; rewrite Hc; repeat split.
Qed.

Lemma pause_resume_audio_witness :
  (mainLoopPaused samplePaused = true /\ audioPaused (audio samplePaused) = true /\
   mainLoopPaused sampleResumed = false /\
   audioPaused (audio sampleResumed) = false) /\
  (exists r0 r1 r2,
     setVolume (Finite 0) sampleRunning = Ok r0 /\
     pauseGame r0 = Ok r1 /\ resumeGame r1 = Ok r2 /\
     mainLoopPaused r2 = false /\ audioPaused (audio r2) = true).
Proof.
  split.
  - assert (Hc : exists c, core sampleRunning = Some c /\
                   negb (default (-1) (mCoreConfigGetIntValue c "volume") >? 0) = false).
    { eexists. split; [vm_compute; reflexivity | vm_compute; reflexivity]. }
    destruct Hc as (c & Hc & Hv).
    destruct (pause_resume_audio sampleRunning samplePaused sampleResumed c Hc)
      as (H1 & H2 & H3 & H4 & _);
      [vm_compute; reflexivity | vm_compute; reflexivity |].
    rewrite Hv in H4. auto.
  - eexists _, _, _.
    split; [vm_compute; reflexivity |].
    split; [vm_compute; reflexivity |].
    split; [vm_compute; reflexivity |].
    split; vm_compute; reflexivity.
Defined.

(* ===================================================================== *)
(** ** What a load keeps and what it drops *)
(* ===================================================================== *)

(** X16: the session that [loadGame] sets up owes nothing to the session
    before it: the result and the machine, with its configuration, key
    bindings and held buttons, are the same whatever was loaded, bound or
    pressed before. *)
Theorem loadGame_starts_afresh (env : LoadEnv) (name : string)
    (ra rb : mEmscriptenRenderer) :
  samples (audio ra) = samples (audio rb) ->
  exists ra' rb' b,
    loadGame env name ra = Ok (ra', b) /\
    loadGame env name rb = Ok (rb', b) /\
    core ra' = core rb'.
Proof.
  intros Hs. unfold loadGame.
  destruct (core ra), (core rb); simpl;
    destruct (mCoreFind env name); simpl;
    eexists _, _, _; (split; [reflexivity |]); (split; [reflexivity |]);
    simpl; rewrite ?Hs; reflexivity.
Qed.

Lemma loadGame_starts_afresh_witness :
  exists r0 ra' rb' b,
    bindKey 97 5 sampleRunning = Ok r0 /\
    core r0 <> core sampleRunning /\
    loadGame sampleEnv "game.gba" r0 = Ok (ra', b) /\
    loadGame sampleEnv "game.gba" main = Ok (rb', b) /\
    core ra' = core rb'.
Proof.
  exists (after (bindKey 97 5 sampleRunning) sampleRunning).
  destruct (loadGame_starts_afresh sampleEnv "game.gba"
              (after (bindKey 97 5 sampleRunning) sampleRunning) main eq_refl)
    as (ra' & rb' & b & Ha & Hb & Hcore).
  exists ra', rb', b.
  split; [vm_compute; reflexivity |].
  split; [vm_compute; discriminate |].
  split; [exact Ha |]. split; [exact Hb | exact Hcore].
Defined.

(** X17: a load that finds no machine for the name still drops the session
    that was loaded, and touches nothing else: the audio device and the
    main loop are left as they were, running if they ran.  It is the next
    tick that suspends the main loop and sets the first-frame flag; the
    audio device is not paused by either. *)
Theorem failed_load_keeps_running (env : LoadEnv) (name : string)
    (events : list SDL_Event) (now : Q) (r : mEmscriptenRenderer) :
  mCoreFind env name = None ->
  exists r1 r2,
    loadGame env name r = Ok (r1, false) /\
    core r1 = None /\
    audio r1 = audio r /\
    mainLoopPaused r1 = mainLoopPaused r /\
    renderFirstFrame r1 = renderFirstFrame r /\
    runLoop events now r1 = Ok r2 /\
    core r2 = None /\
    audio r2 = audio r /\
    mainLoopPaused r2 = true /\
    renderFirstFrame r2 = true.
Proof.
  intros Hfind.
  assert (Hload : exists r1, loadGame env name r = Ok (r1, false) /\
            core r1 = None /\ audio r1 = audio r /\
            mainLoopPaused r1 = mainLoopPaused r /\
            renderFirstFrame r1 = renderFirstFrame r).
  { unfold loadGame. destruct (core r); simpl; rewrite Hfind; simpl;
      eexists; (split; [reflexivity |]); simpl; repeat split. }
  destruct Hload as (r1 & E & Hc & Ha & Hm & Hf).
  exists r1. eexists. split; [exact E |].
  split; [exact Hc |]. split; [exact Ha |]. split; [exact Hm |].
  split; [exact Hf |].
  split; [apply (runLoop_no_session events now r1 Hc) |].
  simpl. repeat split; assumption.
Qed.

Lemma failed_load_keeps_running_witness :
  audioPaused (audio sampleRunning) = false /\
  exists r1 r2,
    loadGame emptyEnv "none.gba" sampleRunning = Ok (r1, false) /\
    core r1 = None /\
    audio r1 = audio sampleRunning /\
    mainLoopPaused r1 = mainLoopPaused sampleRunning /\
    renderFirstFrame r1 = renderFirstFrame sampleRunning /\
    runLoop nil 120 r1 = Ok r2 /\
    core r2 = None /\
    audio r2 = audio sampleRunning /\
    mainLoopPaused r2 = true /\
    renderFirstFrame r2 = true.
Proof.
  split; [vm_compute; reflexivity |].
  apply (failed_load_keeps_running emptyEnv "none.gba" nil 120 sampleRunning).
  reflexivity.
Defined.

(* ===================================================================== *)
(** ** Guarded entry points *)
(* ===================================================================== *)



(** X19: [getVolume], [resumeGame], [bindKey] and, for a positive
    multiplier, [setFastForwardMultiplier] read through the session handle
    without testing it: without a session each of them faults. *)
Theorem unguarded_without_session (r : mEmscriptenRenderer) :
  core r = None ->
  getVolume r = Fault NullDeref /\
  resumeGame r = Fault NullDeref /\
  (forall keycode inputCode, bindKey keycode inputCode r = Fault NullDeref) /\
  (forall m, 0 < m -> setFastForwardMultiplier m r = Fault NullDeref).
Proof.
  intros Hc. unfold getVolume, resumeGame, bindKey, deref. rewrite Hc. simpl.
  repeat split. intros m Hm. unfold setFastForwardMultiplier, deref.
  assert (Hgt : (m >? 0) = true) by (apply Z.gtb_lt; lia).
  rewrite Hgt. simpl. rewrite Hc. reflexivity.
Qed.

Lemma unguarded_without_session_witness :
  getVolume main = Fault NullDeref /\
  resumeGame main = Fault NullDeref /\
  (forall keycode inputCode, bindKey keycode inputCode main = Fault NullDeref) /\
  (forall m, 0 < m -> setFastForwardMultiplier m main = Fault NullDeref).
Proof.
  apply (unguarded_without_session main). reflexivity.
Defined.

(** X20: after a successful [loadGame] the configured volume is the default
    0x100, so a [pauseGame] followed by [resumeGame] brings back both the
    main loop and the audio device. *)
Theorem pause_resume_after_load (env : LoadEnv) (name : string)
    (r r1 r2 r3 : mEmscriptenRenderer) :
  loadGame env name r = Ok (r1, true) ->
  pauseGame r1 = Ok r2 ->
  resumeGame r2 = Ok r3 ->
  audioPaused (audio r1) = false /\ mainLoopPaused r1 = false /\
  audioPaused (audio r2) = true /\ mainLoopPaused r2 = true /\
  audioPaused (audio r3) = false /\ mainLoopPaused r3 = false.
Proof.
  intros Hload Hpause Hresume.
  unfold loadGame in Hload.
  assert (Hr1 : exists c1, core r1 = Some c1 /\
            mCoreConfigGetIntValue c1 "volume" = Some 0x100 /\
            audioPaused (audio r1) = false /\ mainLoopPaused r1 = false).
  { destruct (core r); simpl in Hload;
      destruct (mCoreFind env name); simpl in Hload;
      inversion Hload; subst r1; simpl;
      (eexists; split; [reflexivity |]); (split; [| split; reflexivity]);
      unfold mCoreConfigGetIntValue; simpl;
      rewrite lookup_insert_eq; reflexivity. }
  destruct Hr1 as (c1 & Hc1 & Hvol & Ha1 & Hm1).
  unfold pauseGame in Hpause. inversion Hpause; subst r2; clear Hpause.
  unfold resumeGame, deref in Hresume. simpl in Hresume.
  rewrite Hc1 in Hresume. simpl in Hresume. rewrite Hvol in Hresume.
  simpl in Hresume. inversion Hresume; subst r3. simpl.
  repeat split; assumption.
Qed.

Lemma pause_resume_after_load_witness :
  loadGame sampleEnv "game.gba" main = Ok (sampleLoaded, true) /\
  exists r2 r3,
    pauseGame sampleLoaded = Ok r2 /\ resumeGame r2 = Ok r3 /\
    audioPaused (audio sampleLoaded) = false /\ mainLoopPaused sampleLoaded = false /\
    audioPaused (audio r2) = true /\ mainLoopPaused r2 = true /\
    audioPaused (audio r3) = false /\ mainLoopPaused r3 = false.
Proof.
  assert (Hload : loadGame sampleEnv "game.gba" main = Ok (sampleLoaded, true))
    by (vm_compute; reflexivity).
  split; [exact Hload |].
  exists (after (pauseGame sampleLoaded) sampleLoaded).
  exists (after (resumeGame (after (pauseGame sampleLoaded) sampleLoaded)) sampleLoaded).
  assert (Hp : pauseGame sampleLoaded = Ok (after (pauseGame sampleLoaded) sampleLoaded))
    by (vm_compute; reflexivity).
  assert (Hr : resumeGame (after (pauseGame sampleLoaded) sampleLoaded)
               = Ok (after (resumeGame (after (pauseGame sampleLoaded) sampleLoaded))
                       sampleLoaded))
    by (vm_compute; reflexivity).
  split; [exact Hp |]. split; [exact Hr |].
  exact (pause_resume_after_load sampleEnv "game.gba" main sampleLoaded _ _
           Hload Hp Hr).
Defined.
